(** * MTB Evolution API: baseline calculator and diagnostic resolver

    A shallow embedding of [suspension_engine.py]: the pydantic data model
    with its validators, [SuspensionCalculator] and [DiagnosticAssistant],
    followed by the properties the specification states about them.

    Python [float] is IEEE 754 binary64; it is modelled by the Standard
    Library's [spec_float] at precision 53 and maximal exponent 1024, so
    every product below is rounded to nearest-even exactly as CPython
    rounds it.  Python [int] is [Z]; a Python exception is the [Raise]
    branch of [result]. *)

From Stdlib Require Import ZArith Lia Bool List String Ascii Sorted Permutation.
From Stdlib Require Import Floats.SpecFloat.
From stdpp Require Import base option list strings gmap fin_maps.

Local Open Scope string_scope.
Local Open Scope Z_scope.

(** ** Exceptions and fallible computations *)

Inductive exn :=
| ValueError
| OverflowError
| AttributeError
| ValidationError.

Inductive result (A : Type) :=
| Ok (a : A)
| Raise (e : exn).

Arguments Ok {A} a.
Arguments Raise {A} e.

#[global] Instance result_ret : MRet result := fun _ a => Ok a.
#[global] Instance result_bind : MBind result := fun _ _ f m =>
  match m with
  | Ok a => f a
  | Raise e => Raise e
  end.
#[global] Instance result_fmap : FMap result := fun _ _ f m =>
  match m with
  | Ok a => Ok (f a)
  | Raise e => Raise e
  end.

Definition is_Ok {A} (r : result A) : bool :=
  match r with
  | Ok _ => true
  | Raise _ => false
  end.

(** ** Python numbers *)

Module Py.

Definition prec : Z := 53.
Definition emax : Z := 1024.

Abbreviation float := spec_float.

(** A JSON number is loaded as an [int] or as a [float]. *)
Inductive num :=
| NInt (z : Z)
| NFloat (f : float).

(** [float(z)]: correctly rounded, [OverflowError] when [z] is too large. *)
Definition float_of_int (z : Z) : result float :=
  match binary_normalize prec emax z 0 false with
  | S754_infinity _ => Raise OverflowError
  | f => Ok f
  end.

(** The double nearest to the decimal literal [n / d]. *)
Definition lit (n d : Z) : float :=
  SFdiv prec emax (binary_normalize prec emax n 0 false)
                  (binary_normalize prec emax d 0 false).

Definition float_mul : float -> float -> float := SFmul prec emax.

(** [a * b] on numbers: an [int] operand is converted when the other one
    is a [float]. *)
Definition mul (a b : num) : result num :=
  match a, b with
  | NInt x, NInt y => Ok (NInt (x * y))
  | NInt x, NFloat g => f ← float_of_int x; Ok (NFloat (float_mul f g))
  | NFloat f, NInt y => g ← float_of_int y; Ok (NFloat (float_mul f g))
  | NFloat f, NFloat g => Ok (NFloat (float_mul f g))
  end.

(** [int(f)] truncates toward zero and raises on NaN and infinities. *)
Definition int_of_float (f : float) : result Z :=
  match f with
  | S754_nan => Raise ValueError
  | S754_infinity _ => Raise OverflowError
  | S754_zero _ => Ok 0
  | S754_finite s m e => Ok (cond_Zopp s (Z.shiftl (Zpos m) e))
  end.

Definition int (a : num) : result Z :=
  match a with
  | NInt z => Ok z
  | NFloat f => int_of_float f
  end.

(** [x <= z] for a float and an int compares the exact values. *)
Definition float_le_int (x : float) (z : Z) : bool :=
  match x with
  | S754_nan => false
  | S754_infinity s => s
  | S754_zero _ => 0 <=? z
  | S754_finite s m e =>
      if 0 <=? e then Z.shiftl (cond_Zopp s (Zpos m)) e <=? z
      else cond_Zopp s (Zpos m) <=? Z.shiftl z (- e)
  end.

Definition float_le (x : float) (y : num) : bool :=
  match y with
  | NInt z => float_le_int x z
  | NFloat g => SFleb x g
  end.

Definition float_lt_int (z : Z) (x : float) : bool :=
  match x with
  | S754_nan => false
  | _ => negb (float_le_int x z)
  end.

(** Truthiness of the values an attribute of a component can hold. *)
Inductive value :=
| VNone
| VBool (b : bool)
| VInt (z : Z)
| VStr (s : string).

Definition truthy (v : value) : bool :=
  match v with
  | VNone => false
  | VBool b => b
  | VInt z => negb (z =? 0)
  | VStr s => negb (String.eqb s "")
  end.

(** [s.strip()] for the whitespace that can occur here. *)
Definition is_space (c : ascii) : bool :=
  let n := nat_of_ascii c in
  ((9 <=? n) && (n <=? 13))%nat || (n =? 32)%nat.

Fixpoint lstrip (s : string) : string :=
  match s with
  | String c s' => if is_space c then lstrip s' else s
  | EmptyString => EmptyString
  end.

Fixpoint rstrip (s : string) : string :=
  match s with
  | String c s' =>
      match rstrip s' with
      | EmptyString => if is_space c then EmptyString else String c EmptyString
      | r => String c r
      end
  | EmptyString => EmptyString
  end.

Definition strip (s : string) : string := rstrip (lstrip s).

End Py.

Import Py.

(** ** 1. Models *)

Inductive Terrain := flow | jumps | technical_roots | terrain_mix.
Inductive Weather := dry | wet | weather_mix.

Record RidingConditions := {
  terrain : Terrain;
  weather : Weather
}.

Definition RidingConditions_default : RidingConditions :=
  {| terrain := terrain_mix; weather := dry |}.

Inductive Brand := rockshox | fox | marzocchi | ohlins | other.

Definition brand_name (b : Brand) : string :=
  match b with
  | rockshox => "rockshox"
  | fox => "fox"
  | marzocchi => "marzocchi"
  | ohlins => "ohlins"
  | other => "other"
  end.

Record SuspensionComponent := {
  brand : Brand;
  travel_mm : Z;
  has_air_spring : bool;
  has_rebound : bool;
  has_lsc : bool;
  has_hsc : bool;
  has_lsr : bool;
  has_hsr : bool;
  tokens_adjustable : bool;
  current_psi : option Z
}.

Inductive BikeType :=
| hardtail
| full_suspension_xc
| full_suspension_trail_enduro
| downhill.

Definition bike_type_name (b : BikeType) : string :=
  match b with
  | hardtail => "hardtail"
  | full_suspension_xc => "full_suspension_xc"
  | full_suspension_trail_enduro => "full_suspension_trail_enduro"
  | downhill => "downhill"
  end.

Record RiderProfile := {
  weight_kg : float;
  bike_type : BikeType;
  skill_level : string
}.

Record BikeSetup := {
  rider : RiderProfile;
  conditions : RidingConditions;
  fork : SuspensionComponent;
  shock : option SuspensionComponent
}.

(** *** Field constraints

    [Field(..., gt=35, le=250)] and [Field(..., gt=30, le=150)]. *)

Definition SuspensionComponent_ok (c : SuspensionComponent) : bool :=
  (35 <? travel_mm c) && (travel_mm c <=? 250).

Definition RiderProfile_ok (r : RiderProfile) : bool :=
  float_lt_int 30 (weight_kg r) && float_le_int (weight_kg r) 150.

(** *** Construction of a [BikeSetup]

    The fields are validated in declaration order; a field that fails is
    left out of [values.data].  The validator of [shock] runs on a supplied
    value (also an explicit null) once that value has passed its own
    checks, and not on the default of an omitted field. *)

Inductive ShockInput :=
| ShockOmitted
| ShockNull
| ShockGiven (c : SuspensionComponent).

(** [validate_shock(cls, v, values)]; [data_rider] is
    [values.data.get('rider')]. *)
Definition validate_shock (v : option SuspensionComponent)
    (data_rider : option RiderProfile) : result (option SuspensionComponent) :=
  match data_rider with
  | None => Raise AttributeError
  | Some r =>
      match bike_type r, v with
      | hardtail, Some _ => Raise ValueError
      | _, _ => Ok v
      end
  end.

Definition BikeSetup_new (r : RiderProfile) (c : RidingConditions)
    (f : SuspensionComponent) (s : ShockInput) : result BikeSetup :=
  let data_rider := if RiderProfile_ok r then Some r else None in
  let fork_ok := SuspensionComponent_ok f in
  (* the outcome of the [shock] field: an exception that is not a
     validation failure leaves the constructor at once *)
  shock_field ←
    match s with
    | ShockOmitted => Ok (Some None)
    | ShockNull =>
        match validate_shock None data_rider with
        | Ok v => Ok (Some v)
        | Raise ValueError => Ok None
        | Raise e => Raise e
        end
    | ShockGiven sc =>
        if SuspensionComponent_ok sc then
          match validate_shock (Some sc) data_rider with
          | Ok v => Ok (Some v)
          | Raise ValueError => Ok None
          | Raise e => Raise e
          end
        else Ok None
    end;
  match data_rider, fork_ok, shock_field with
  | Some r', true, Some sh =>
      Ok {| rider := r'; conditions := c; fork := f; shock := sh |}
  | _, _, _ => Raise ValidationError
  end.

(** A setup that construction can produce. *)
Definition BikeSetup_ok (b : BikeSetup) : bool :=
  RiderProfile_ok (rider b)
  && SuspensionComponent_ok (fork b)
  && match shock b with
     | None => true
     | Some sc =>
         SuspensionComponent_ok sc
         && match bike_type (rider b) with hardtail => false | _ => true end
     end.

(** ** Reference data *)

Record ReboundEntry := {
  max_kg : num;
  entry_clicks : Z
}.

(** A brand's dict, with the keys the reference data gives it (all of
    them read by the calculator); [None] is an absent key. *)
Record BrandData := {
  psi_multiplier : option num;
  base_lsc : option Z;
  base_hsc : option Z;
  rebound_table : option (list ReboundEntry)
}.

(** The dict [{}]. *)
Definition no_brand_data : BrandData :=
  {| psi_multiplier := None; base_lsc := None; base_hsc := None;
     rebound_table := None |}.

(** [not brand_data]. *)
Definition brand_data_empty (d : BrandData) : bool :=
  match psi_multiplier d, base_lsc d, base_hsc d, rebound_table d with
  | None, None, None, None => true
  | _, _, _, _ => false
  end.

Record Specs := {
  forks : option (gmap string BrandData);
  shocks : option (gmap string BrandData);
  sag_targets : option (gmap string (gmap string num))
}.

(** [self.specs = {}], the store after a failed load. *)
Definition no_specs : Specs :=
  {| forks := None; shocks := None; sag_targets := None |}.

(** [self.specs.get(key, {})] for the brand sections. *)
Definition specs_section (specs : Specs) (key : string) : gmap string BrandData :=
  if String.eqb key "forks" then default ∅ (forks specs)
  else if String.eqb key "shocks" then default ∅ (shocks specs)
  else ∅.

(** ** 2. SuspensionCalculator *)

Definition f_1_0 : float := Eval vm_compute in lit 10 10.
Definition f_1_05 : float := Eval vm_compute in lit 105 100.
Definition f_0_98 : float := Eval vm_compute in lit 98 100.
Definition f_0_95 : float := Eval vm_compute in lit 95 100.
Definition f_0_25 : float := Eval vm_compute in lit 25 100.

(** [_get_dynamic_rebound]. *)
Fixpoint first_band (table : list ReboundEntry) (weight : float) : option Z :=
  match table with
  | [] => None
  | entry :: rest =>
      if float_le weight (max_kg entry) then Some (entry_clicks entry)
      else first_band rest weight
  end.

Definition _get_dynamic_rebound (component_data : BrandData) (weight : float) : Z :=
  let table := default [] (rebound_table component_data) in
  match table with
  | [] => 6
  | e0 :: _ =>
      match first_band table weight with
      | Some c => c
      | None => entry_clicks (List.last table e0)
      end
  end.

(** An entry of the [modifiers] table; an absent key is [None]. *)
Record Modifier := {
  m_lsc : option Z;
  m_hsc : option Z;
  m_rebound : option Z;
  m_psi_pct : option float;
  m_tip : string
}.

Definition terrain_modifier (t : Terrain) : Modifier :=
  match t with
  | flow =>
      {| m_lsc := Some 1; m_hsc := None; m_rebound := Some 0;
         m_psi_pct := Some f_1_0; m_tip := "Flow staza traži podršku." |}
  | jumps =>
      {| m_lsc := Some 2; m_hsc := Some 1; m_rebound := Some 1;
         m_psi_pct := Some f_1_05;
         m_tip := "Skokovi traže stabilnost i sporiji rebound." |}
  | technical_roots =>
      {| m_lsc := Some (-1); m_hsc := None; m_rebound := Some (-1);
         m_psi_pct := Some f_0_98;
         m_tip := "Korijenje traži mekoću i brz rebound." |}
  | terrain_mix =>
      {| m_lsc := Some 0; m_hsc := None; m_rebound := Some 0;
         m_psi_pct := Some f_1_0; m_tip := "Balansirano." |}
  end.

Definition weather_modifier (w : Weather) : Modifier :=
  match w with
  | dry =>
      {| m_lsc := Some 0; m_hsc := None; m_rebound := Some 0;
         m_psi_pct := Some f_1_0; m_tip := "" |}
  | wet =>
      {| m_lsc := Some (-2); m_hsc := None; m_rebound := Some (-1);
         m_psi_pct := Some f_0_95;
         m_tip := "Mokro je! Mekša kompresija za grip." |}
  | weather_mix =>
      {| m_lsc := Some (-1); m_hsc := None; m_rebound := Some 0;
         m_psi_pct := Some f_0_98; m_tip := "Promjenjivo." |}
  end.

Record Recommendation := {
  psi : Z;
  sag_mm : Z;
  sag_pct : Z;
  clicks : gmap string Z;
  smart_tip : string
}.

(** Line 98. *)
Definition fallback_key (comp_type : string) : string :=
  if String.eqb comp_type "fork" then "rockshox" else "standard_air".

Section Calculator.

(** [self.specs] *)
Variable specs : Specs.

(** The locals of [calculate_baseline] that [get_component_settings]
    closes over. *)
Variable rider_weight : float.
Variable bike_type_ : BikeType.
Variables t_mod w_mod : Modifier.

(** Lines 95-99: the brand's entry, or the fallback brand's. *)
Definition resolve_brand_data (comp : SuspensionComponent) (comp_type : string)
    : BrandData :=
  let section := specs_section specs (comp_type +:+ "s") in
  let brand_data := default no_brand_data (section !! brand_name (brand comp)) in
  if brand_data_empty brand_data then
    default no_brand_data (section !! fallback_key comp_type)
  else brand_data.

(** Lines 101-103. *)
Definition compute_psi (brand_data : BrandData) : result Z :=
  let psi_mult := default (NFloat f_1_0) (psi_multiplier brand_data) in
  x ← Py.mul (NFloat rider_weight) psi_mult;
  base_psi ← Py.int x;
  y ← Py.mul (NInt base_psi) (NFloat (default f_1_0 (m_psi_pct t_mod)));
  z ← Py.mul y (NFloat (default f_1_0 (m_psi_pct w_mod)));
  Py.int z.

(** Line 105. *)
Definition lookup_sag_pct (comp_type : string) : num :=
  let by_bike :=
    default ∅ (default ∅ (sag_targets specs) !! bike_type_name bike_type_) in
  default (NFloat f_0_25) (by_bike !! comp_type).

(** Lines 108-117. *)
Definition final_rebound (brand_data : BrandData) : Z :=
  let base_rebound := _get_dynamic_rebound brand_data rider_weight in
  Z.max 0 (base_rebound + default 0 (m_rebound t_mod) + default 0 (m_rebound w_mod)).

Definition final_lsr (brand_data : BrandData) : Z := final_rebound brand_data.

Definition final_hsr (brand_data : BrandData) : Z :=
  Z.max 0 (final_rebound brand_data + 1).

Definition final_lsc (brand_data : BrandData) : Z :=
  let base := default 2 (base_lsc brand_data) in
  Z.max 0 (base + default 0 (m_lsc t_mod) + default 0 (m_lsc w_mod)).

Definition final_hsc (brand_data : BrandData) : Z :=
  let base := default 1 (base_hsc brand_data) in
  Z.max 0 (base + default 0 (m_hsc t_mod) + default 0 (m_hsc w_mod)).

(** [if flag: clicks[key] = v] *)
Definition set_if (flag : bool) (key : string) (v : Z) (d : gmap string Z)
    : gmap string Z :=
  if flag then <[key := v]> d else d.

(** Lines 119-124. *)
Definition build_clicks (comp : SuspensionComponent) (brand_data : BrandData)
    : gmap string Z :=
  let clicks := ∅ in
  let clicks := set_if (has_rebound comp) "rebound" (final_rebound brand_data) clicks in
  let clicks := set_if (has_lsr comp) "lsr" (final_lsr brand_data) clicks in
  let clicks := set_if (has_hsr comp) "hsr" (final_hsr brand_data) clicks in
  let clicks := set_if (has_lsc comp) "lsc" (final_lsc brand_data) clicks in
  let clicks := set_if (has_hsc comp) "hsc" (final_hsc brand_data) clicks in
  clicks.

Definition get_component_settings (comp : SuspensionComponent) (comp_type : string)
    : result Recommendation :=
  let brand_data := resolve_brand_data comp comp_type in
  final_psi ← compute_psi brand_data;
  let sag_pct := lookup_sag_pct comp_type in
  s ← Py.mul (NInt (travel_mm comp)) sag_pct;
  sag_mm ← Py.int s;
  let clicks := build_clicks comp brand_data in
  p ← Py.mul sag_pct (NInt 100);
  sag_pct_int ← Py.int p;
  Ok {| psi := final_psi;
        sag_mm := sag_mm;
        sag_pct := sag_pct_int;
        clicks := clicks;
        smart_tip := strip (m_tip t_mod +:+ " " +:+ m_tip w_mod) |}.

End Calculator.

Definition calculate_baseline (specs : Specs) (setup : BikeSetup)
    : result (gmap string Recommendation) :=
  let rider_weight := weight_kg (rider setup) in
  let bike_type := bike_type (rider setup) in
  let conditions := conditions setup in
  let recommendations := ∅ in
  let t_mod := terrain_modifier (terrain conditions) in
  let w_mod := weather_modifier (weather conditions) in
  r ← get_component_settings specs rider_weight bike_type t_mod w_mod
         (fork setup) "fork";
  let recommendations := <["fork" := r]> recommendations in
  match shock setup with
  | Some sh =>
      r' ← get_component_settings specs rider_weight bike_type t_mod w_mod
              sh "shock";
      Ok (<["shock" := r']> recommendations)
  | None => Ok recommendations
  end.

(** ** 3. DiagnosticAssistant *)

Record Solution := {
  logic_check : string;
  priority : Z;
  action : string
}.

Record Problem := {
  symptom_id : string;
  symptom_name : string;
  required_component : string;
  solutions : list Solution
}.

(** The three shapes of dict that [diagnose_problem] returns. *)
Inductive Diagnosis :=
| DiagError (error : string)
| DiagResult (message : string)
| DiagFix (symptom : string) (primary_fix : Solution)
          (secondary_fix : option Solution).

(** The declared fields of a component, as [getattr] finds them. *)
Definition field_value (c : SuspensionComponent) (name : string) : option value :=
  if String.eqb name "brand" then Some (VStr (brand_name (brand c)))
  else if String.eqb name "travel_mm" then Some (VInt (travel_mm c))
  else if String.eqb name "has_air_spring" then Some (VBool (has_air_spring c))
  else if String.eqb name "has_rebound" then Some (VBool (has_rebound c))
  else if String.eqb name "has_lsc" then Some (VBool (has_lsc c))
  else if String.eqb name "has_hsc" then Some (VBool (has_hsc c))
  else if String.eqb name "has_lsr" then Some (VBool (has_lsr c))
  else if String.eqb name "has_hsr" then Some (VBool (has_hsr c))
  else if String.eqb name "tokens_adjustable" then Some (VBool (tokens_adjustable c))
  else if String.eqb name "current_psi" then
    Some (match current_psi c with Some z => VInt z | None => VNone end)
  else None.

(** [list.sort(key=lambda x: x['priority'])] is a stable sort. *)
Fixpoint insert_by_priority (x : Solution) (l : list Solution) : list Solution :=
  match l with
  | [] => [x]
  | y :: l' =>
      if priority x <=? priority y then x :: l
      else y :: insert_by_priority x l'
  end.

Fixpoint sort_by_priority (l : list Solution) : list Solution :=
  match l with
  | [] => []
  | x :: l' => insert_by_priority x (sort_by_priority l')
  end.

(** Lines 153-154: the component a symptom is about. *)
Definition actual_comp (setup : BikeSetup) (problem : Problem)
    : option SuspensionComponent :=
  let comp_name := required_component problem in
  if String.eqb comp_name "fork" then Some (fork setup) else shock setup.

Section Diagnostic.

(** What the model base class adds to every component besides the
    declared fields: the truthiness of the attribute of that name, [None]
    when there is none. *)
Variable base_attr : string -> option bool.

(** Truthiness of [getattr(comp, name, False)]. *)
Definition getattr_truthy (comp : SuspensionComponent) (name : string) : bool :=
  match field_value comp name with
  | Some v => truthy v
  | None => default false (base_attr name)
  end.

(** The condition of line 160. *)
Definition solution_applies (comp : SuspensionComponent) (solution : Solution)
    : bool :=
  let check := logic_check solution in
  String.eqb check "always_true" || getattr_truthy comp check.

(** [self.logic_db] *)
Variable logic_db : list Problem.

Definition find_problem (symptom : string) : option Problem :=
  List.find (fun item => String.eqb (symptom_id item) symptom) logic_db.

Definition diagnose_problem (setup : BikeSetup) (symptom : string) : Diagnosis :=
  match find_problem symptom with
  | None => DiagError "Nepoznat simptom."
  | Some problem =>
      match actual_comp setup problem with
      | None => DiagError "Komponenta ne postoji na biciklu."
      | Some comp =>
          let valid_solutions :=
            List.filter (solution_applies comp) (solutions problem) in
          match sort_by_priority valid_solutions with
          | [] => DiagResult "Nema rješenja, posjeti servis."
          | s0 :: rest =>
              DiagFix (symptom_name problem) s0 (List.head rest)
          end
      end
  end.

End Diagnostic.

(** ** Vocabulary of the properties *)

(** The component a key of the output ("fork", "shock") stands for. *)
Definition present_component (setup : BikeSetup) (name : string)
    : option SuspensionComponent :=
  if String.eqb name "fork" then Some (fork setup)
  else if String.eqb name "shock" then shock setup
  else None.

(** The capability flag that governs a key of [clicks]. *)
Definition click_flag (comp : SuspensionComponent) (key : string) : bool :=
  if String.eqb key "rebound" then has_rebound comp
  else if String.eqb key "lsr" then has_lsr comp
  else if String.eqb key "hsr" then has_hsr comp
  else if String.eqb key "lsc" then has_lsc comp
  else if String.eqb key "hsc" then has_hsc comp
  else false.

(** [get_component_settings] as [calculate_baseline] calls it. *)
Definition settings_of (specs : Specs) (setup : BikeSetup)
    (comp : SuspensionComponent) (name : string) : result Recommendation :=
  get_component_settings specs (weight_kg (rider setup)) (bike_type (rider setup))
    (terrain_modifier (terrain (conditions setup)))
    (weather_modifier (weather (conditions setup))) comp name.

(** Rounding toward zero, stated on the value [(-1)^s * m * 2^e] of a
    float with the quotient that truncates. *)
Definition toward_zero (f : float) : result Z :=
  match f with
  | S754_nan => Raise ValueError
  | S754_infinity _ => Raise OverflowError
  | S754_zero _ => Ok 0
  | S754_finite s m e =>
      Ok (if 0 <=? e then cond_Zopp s (Zpos m) * 2 ^ e
          else Z.quot (cond_Zopp s (Zpos m)) (2 ^ (- e)))
  end.

Definition truncated (a : num) : result Z :=
  match a with
  | NInt z => Ok z
  | NFloat f => toward_zero f
  end.

(** The target PSI in the words of the specification: the weight times
    the brand multiplier, truncated; then times the terrain and the weather
    percentage, truncated again. *)
Definition target_psi (weight : float) (multiplier : num)
    (terrain_pct weather_pct : float) : result Z :=
  by_brand ← Py.mul (NFloat weight) multiplier;
  staged ← truncated by_brand;
  by_terrain ← Py.mul (NInt staged) (NFloat terrain_pct);
  by_weather ← Py.mul by_terrain (NFloat weather_pct);
  truncated by_weather.

(** [t_mod.get('psi_pct', 1.0)] *)
Definition psi_pct_of (m : Modifier) : float := default f_1_0 (m_psi_pct m).

(** The coefficient [psi_multiplier] that applies to a component. *)
Definition multiplier_of (specs : Specs) (comp : SuspensionComponent)
    (name : string) : num :=
  default (NFloat f_1_0) (psi_multiplier (resolve_brand_data specs comp name)).

(** The ranking [diagnose_problem] reports. *)
Definition report (problem : Problem) (ranked : list Solution) : Diagnosis :=
  match ranked with
  | [] => DiagResult "Nema rješenja, posjeti servis."
  | s0 :: rest => DiagFix (symptom_name problem) s0 (List.head rest)
  end.

(** The filter in the words of the specification: the sentinel, or a
    boolean capability flag of that name that is set. *)
Definition capability_flag (comp : SuspensionComponent) (name : string)
    : option bool :=
  if String.eqb name "has_air_spring" then Some (has_air_spring comp)
  else if String.eqb name "has_rebound" then Some (has_rebound comp)
  else if String.eqb name "has_lsc" then Some (has_lsc comp)
  else if String.eqb name "has_hsc" then Some (has_hsc comp)
  else if String.eqb name "has_lsr" then Some (has_lsr comp)
  else if String.eqb name "has_hsr" then Some (has_hsr comp)
  else if String.eqb name "tokens_adjustable" then Some (tokens_adjustable comp)
  else None.

Definition flag_applies (comp : SuspensionComponent) (solution : Solution) : bool :=
  String.eqb (logic_check solution) "always_true"
  || default false (capability_flag comp (logic_check solution)).

Definition by_priority (a b : Solution) : Prop := priority a <= priority b.

Definition with_priority (p : Z) (s : Solution) : bool := priority s =? p.

(** ** Sample data *)

Module Sample.

Definition fork0 : SuspensionComponent :=
  {| brand := rockshox; travel_mm := 160; has_air_spring := true;
     has_rebound := true; has_lsc := true; has_hsc := false;
     has_lsr := false; has_hsr := true; tokens_adjustable := true;
     current_psi := None |}.

Definition shock0 : SuspensionComponent :=
  {| brand := fox; travel_mm := 150; has_air_spring := true;
     has_rebound := true; has_lsc := false; has_hsc := true;
     has_lsr := true; has_hsr := false; tokens_adjustable := false;
     current_psi := Some 180 |}.

Definition rockshox_data : BrandData :=
  {| psi_multiplier := Some (NFloat f_1_0); base_lsc := Some 2;
     base_hsc := None;
     rebound_table := Some [ {| max_kg := NInt 60; entry_clicks := 9 |};
                             {| max_kg := NInt 80; entry_clicks := 7 |};
                             {| max_kg := NFloat (lit 1005 10); entry_clicks := 5 |} ] |}.

Definition specs0 : Specs :=
  {| forks := Some {[ "rockshox" := rockshox_data ]};
     shocks := None;
     sag_targets := None |}.

Definition w75 : float := Eval vm_compute in lit 75 1.
Definition w90 : float := Eval vm_compute in lit 90 1.

Definition rider0 : RiderProfile :=
  {| weight_kg := w75; bike_type := full_suspension_trail_enduro;
     skill_level := "intermediate" |}.

Definition setup0 : BikeSetup :=
  {| rider := rider0;
     conditions := {| terrain := jumps; weather := dry |};
     fork := fork0; shock := Some shock0 |}.

Definition recs0 : gmap string Recommendation :=
  match calculate_baseline specs0 setup0 with
  | Ok m => m
  | Raise _ => ∅
  end.

Definition setup_hardtail : BikeSetup :=
  {| rider := {| weight_kg := w90; bike_type := hardtail;
                 skill_level := "beginner" |};
     conditions := RidingConditions_default;
     fork := fork0; shock := None |}.

Definition by_service : Solution :=
  {| logic_check := "always_true"; priority := 3;
     action := "Book a damper service." |}.
Definition by_token : Solution :=
  {| logic_check := "tokens_adjustable"; priority := 3;
     action := "Add a volume spacer." |}.
Definition by_rebound : Solution :=
  {| logic_check := "always_true"; priority := 1;
     action := "Slow the rebound by two clicks." |}.
Definition by_pressure : Solution :=
  {| logic_check := "always_true"; priority := 2;
     action := "Add 5 psi." |}.
Definition by_brand : Solution :=
  {| logic_check := "brand"; priority := 1;
     action := "Check the service bulletin." |}.
Definition by_hsc : Solution :=
  {| logic_check := "has_hsc"; priority := 1;
     action := "Open the high-speed compression." |}.

Definition bottom_out : Problem :=
  {| symptom_id := "fork_bottom_out"; symptom_name := "Fork bottoms out";
     required_component := "fork";
     solutions := [by_service; by_rebound; by_pressure] |}.
Definition harsh : Problem :=
  {| symptom_id := "fork_harsh"; symptom_name := "Fork feels harsh";
     required_component := "fork";
     solutions := [by_pressure; by_brand] |}.
Definition wallow : Problem :=
  {| symptom_id := "shock_wallow"; symptom_name := "Shock wallows";
     required_component := "shock";
     solutions := [by_token; by_hsc; by_rebound] |}.

Definition logic_db0 : list Problem := [bottom_out; harsh; wallow].

(** A component with nothing beyond its declared fields. *)
Definition no_base_attr : string -> option bool := fun _ => None.

End Sample.

(** ** Binary64 arithmetic: vocabulary *)

(** [v / 2^t] rounded to nearest, ties to even. *)
Definition rne (v t : Z) : Z :=
  let q := v / 2 ^ t in
  match 2 * (v mod 2 ^ t) ?= 2 ^ t with
  | Lt => q
  | Eq => if Z.even q then q else q + 1
  | Gt => q + 1
  end.

(** What [shr_1] maintains: after [k] shifts of [M] the record holds the
    quotient, and its round and sticky bits place the remainder against
    one half. *)
Definition shr_inv (M k : Z) (mrs : shr_record) : Prop :=
  shr_m mrs = M / 2 ^ k
  /\ shr_r mrs = (2 ^ k <=? 2 * (M mod 2 ^ k))
  /\ shr_s mrs = negb ((M mod 2 ^ k =? 0) || (2 * (M mod 2 ^ k) =? 2 ^ k)).

(** The float of value [(-1)^s * q * 2^E] for [q <= 2^53]. *)
Definition round_mag (s : bool) (q E : Z) : spec_float :=
  match q with
  | Z0 => S754_zero s
  | Zpos p =>
      if q <? 2 ^ 53 then
        if E <=? 971 then S754_finite s p E else S754_infinity s
      else
        if E + 1 <=? 971 then S754_finite s (2 ^ 52) (E + 1) else S754_infinity s
  | Zneg _ => S754_nan
  end.

(** The value of a float in units of [2^-1074], the smallest subnormal;
    every binary64 number is an integer there, and [INF] stands for the
    infinities. *)
Definition INF : Z := 2 ^ 2098.

Definition rank (x : spec_float) : Z :=
  match x with
  | S754_zero _ => 0
  | S754_finite s m e => cond_Zopp s (Zpos m * 2 ^ (e + 1074))
  | S754_infinity s => cond_Zopp s INF
  | S754_nan => 0
  end.

Definition nonneg (x : spec_float) : bool :=
  match x with
  | S754_zero _ => true
  | S754_finite s _ _ => negb s
  | S754_infinity s => negb s
  | S754_nan => false
  end.

Definition is_float (x : spec_float) : bool := valid_binary prec emax x.

(** Binary64 rounding on integers: [v] is a value in units of [2^-2148]
    (where every product of two floats is an integer), the result its
    nearest float in units of [2^-1074], before overflow. *)
Definition Rnd (v : Z) : Z :=
  let t := Z.max (Zdigits2 v - 53) 1074 in
  rne v t * 2 ^ (t - 1074).

(** A float that is zero, positive or plus infinity, and well formed. *)
Definition good (x : float) : Prop := is_float x = true /\ nonneg x = true.

(** A well-formed number and the test [0 <= m] on it. *)
Definition num_ok (a : num) : bool :=
  match a with
  | NInt _ => true
  | NFloat f => is_float f
  end.

Definition num_nonneg (a : num) : bool :=
  match a with
  | NInt z => 0 <=? z
  | NFloat f => SFleb (S754_zero false) f
  end.

(** A sag target whose products with a travel and with 100 stay finite:
    an [int], or a float of magnitude at most 2^900, of either sign. *)
Definition sag_bound : float := Eval vm_compute in lit (2 ^ 900) 1.

Definition sag_in_range (a : num) : bool :=
  match a with
  | NInt _ => true
  | NFloat f => is_float f && SFleb (SFabs f) sag_bound
  end.

(** The setup with another rider weight. *)
Definition with_weight (setup : BikeSetup) (w : float) : BikeSetup :=
  {| rider := {| weight_kg := w;
                 bike_type := bike_type (rider setup);
                 skill_level := skill_level (rider setup) |};
     conditions := conditions setup;
     fork := fork setup;
     shock := shock setup |}.

(** The psi that [calculate_baseline] emits for a component, if any. *)
Definition psi_at (specs : Specs) (setup : BikeSetup) (name : string) : option Z :=
  match calculate_baseline specs setup with
  | Ok recs => psi <$> recs !! name
  | Raise _ => None
  end.

(** The psi pipeline on ranks: multiplier, truncation, conversion back,
    terrain and weather percentage, truncation. *)
Definition psi_of_rank (rg rt rw r : Z) : Z :=
  let staged := Rnd (r * rg) / 2 ^ 1074 in
  Rnd (Rnd (Rnd (staged * 2 ^ 2148) * rt) * rw) / 2 ^ 1074.

Module Stores.

Definition inverted : Specs :=
  {| forks := Some {[ "rockshox" :=
                        {| psi_multiplier := Some (NFloat (SFopp f_1_0));
                           base_lsc := None; base_hsc := None;
                           rebound_table := None |} ]};
     shocks := None;
     sag_targets := None |}.

Definition sag_only : Specs :=
  {| forks := None; shocks := None;
     sag_targets := Some {[ "hardtail" := {[ "fork" := NFloat (lit 2 10) ]} ]} |}.



End Stores.

(** The rank of a multiplier once it is a float. *)
Definition num_rank (a : num) : Z :=
  match a with
  | NInt z => Rnd (z * 2 ^ 2148)
  | NFloat g => rank g
  end.

(** Neither the component's brand nor the fallback brand of its type has
    an entry in the store. *)
Definition brand_unknown (specs : Specs) (comp : SuspensionComponent)
    (name : string) : Prop :=
  specs_section specs (name +:+ "s") !! brand_name (brand comp) = None
  /\ specs_section specs (name +:+ "s") !! fallback_key name = None.

(** ** Loading the reference files and the two endpoints *)

(** What opening and parsing a reference file can end in. *)
Inductive load_error :=
| FileNotFoundError
| JSONDecodeError
| OtherLoadError.

Inductive loaded (A : Type) :=
| Loaded (a : A)
| LoadFailed (e : load_error).

Arguments Loaded {A} a.
Arguments LoadFailed {A} e.

(** [SuspensionCalculator.__init__]: [self.specs], or the exception that
    the [except] clause does not name (the message it prints is left out). *)
Definition SuspensionCalculator_init (specs_file : loaded Specs)
    : load_error + Specs :=
  match specs_file with
  | Loaded specs => inr specs
  | LoadFailed FileNotFoundError => inr no_specs
  | LoadFailed JSONDecodeError => inr no_specs
  | LoadFailed e => inl e
  end.

(** [DiagnosticAssistant.__init__]: [self.logic_db]; every exception is
    caught. *)
Definition DiagnosticAssistant_init (logic_file : loaded (list Problem))
    : list Problem :=
  match logic_file with
  | Loaded db => db
  | LoadFailed _ => []
  end.

(** [get_baseline_setup]: a calculator is built for each request. *)
Definition get_baseline_setup (specs_file : loaded Specs) (bike : BikeSetup)
    : load_error + result (gmap string Recommendation) :=
  match SuspensionCalculator_init specs_file with
  | inl e => inl e
  | inr specs => inr (calculate_baseline specs bike)
  end.

(** [diagnose_issue] *)
Definition diagnose_issue (base_attr : string -> option bool)
    (logic_file : loaded (list Problem)) (bike : BikeSetup)
    (symptom_id : string) : Diagnosis :=
  diagnose_problem base_attr (DiagnosticAssistant_init logic_file) bike symptom_id.

(** ** More vocabulary *)

(** The shock as an input of the constructor. *)
Definition shock_of (s : ShockInput) : option SuspensionComponent :=
  match s with
  | ShockGiven c => Some c
  | _ => None
  end.

(** The setup with other riding conditions, and without its shock. *)
Definition with_conditions (setup : BikeSetup) (c : RidingConditions) : BikeSetup :=
  {| rider := rider setup; conditions := c;
     fork := fork setup; shock := shock setup |}.

Definition without_shock (setup : BikeSetup) : BikeSetup :=
  {| rider := rider setup; conditions := conditions setup;
     fork := fork setup; shock := None |}.

(** A sag target between 0 and 1, as an [int] or as a float. *)
Definition unit_fraction (a : num) : bool :=
  match a with
  | NInt z => (0 <=? z) && (z <=? 1)
  | NFloat f => is_float f && SFleb (S754_zero false) f && SFleb f f_1_0
  end.

(** The clicks of the entries of a rebound table. *)
Definition table_clicks (d : BrandData) : list Z :=
  List.map entry_clicks (default [] (rebound_table d)).

(** The tip that a terrain and a weather give together. *)
Definition joined_tip (t : Terrain) (w : Weather) : string :=
  match w with
  | dry => m_tip (terrain_modifier t)
  | _ => m_tip (terrain_modifier t) +:+ " " +:+ m_tip (weather_modifier w)
  end.

Definition not_found : Diagnosis := DiagError "Nepoznat simptom.".
Definition no_solution : Diagnosis := DiagResult "Nema rješenja, posjeti servis.".

Module More.

Definition dive : Problem :=
  {| symptom_id := "fork_dive"; symptom_name := "Fork dives";
     required_component := "fork"; solutions := [Sample.by_hsc] |}.

Definition harsh_again : Problem :=
  {| symptom_id := "fork_harsh"; symptom_name := "Duplicate";
     required_component := "shock"; solutions := [] |}.

Definition setup_trail : BikeSetup :=
  {| rider := Sample.rider0;
     conditions := {| terrain := terrain_mix; weather := dry |};
     fork := Sample.fork0; shock := Some Sample.shock0 |}.

Definition wet_trail : RidingConditions :=
  {| terrain := terrain_mix; weather := wet |}.

End More.

(** Wetter weather first: wet, then mixed, then dry. *)
Definition weather_le (w1 w2 : Weather) : bool :=
  match w1, w2 with
  | wet, _ => true
  | weather_mix, (weather_mix | dry) => true
  | dry, dry => true
  | _, _ => false
  end.

(** No sag target in the store for this bike type and component. *)
Definition no_sag_target (specs : Specs) (bt : BikeType) (name : string) : Prop :=
  default ∅ (default ∅ (sag_targets specs) !! bike_type_name bt) !! name = None.


(** What the calculator reads of a component: the brand, the travel and
    the five click flags. *)
Definition calculator_view (c : SuspensionComponent)
    : Brand * Z * bool * bool * bool * bool * bool :=
  (brand c, travel_mm c, has_rebound c, has_lsr c, has_hsr c, has_lsc c,
   has_hsc c).

Module Coil.

(** [Sample.setup0] with a coil fork whose pressure is known, ridden by an
    expert. *)
Definition fork1 : SuspensionComponent :=
  {| brand := rockshox; travel_mm := 160; has_air_spring := false;
     has_rebound := true; has_lsc := true; has_hsc := false;
     has_lsr := false; has_hsr := true; tokens_adjustable := false;
     current_psi := Some 95 |}.

Definition setup1 : BikeSetup :=
  {| rider := {| weight_kg := Sample.w75;
                 bike_type := full_suspension_trail_enduro;
                 skill_level := "expert" |};
     conditions := conditions Sample.setup0;
     fork := fork1; shock := shock Sample.setup0 |}.

End Coil.

Module Light.

(** A hardtail rider of 20 kg, below the weight constraint. *)
Definition w20 : float := Eval vm_compute in lit 20 1.

Definition rider20 : RiderProfile :=
  {| weight_kg := w20; bike_type := hardtail; skill_level := "intermediate" |}.

End Light.
(** ** Shape of the calculator's result *)

Lemma bind_Ok {A B} (m : result A) (f : A -> result B) (b : B) :
  m ≫= f = Ok b -> exists a, m = Ok a /\ f a = Ok b.
Proof. destruct m as [a|e]; simpl; [eauto | discriminate]. Qed.

Lemma present_component_cases setup name comp :
  present_component setup name = Some comp ->
  (name = "fork" /\ comp = fork setup)
  \/ (name = "shock" /\ shock setup = Some comp).
Proof.
  unfold present_component.
  destruct (String.eqb_spec name "fork") as [->|_].
  - intros [= <-]. by left.
  - destruct (String.eqb_spec name "shock") as [->|_]; [|discriminate].
    intros H. by right.
Qed.

(** Every present component has an entry, and it is what
    [get_component_settings] returned for it. *)
Lemma calculate_baseline_entry specs setup recs name comp :
  calculate_baseline specs setup = Ok recs ->
  present_component setup name = Some comp ->
  exists r, recs !! name = Some r /\ settings_of specs setup comp name = Ok r.
Proof.
  unfold calculate_baseline, settings_of. intros Hcalc Hpres.
  apply bind_Ok in Hcalc as (rf & Hf & Hrest).
  apply present_component_cases in Hpres as [[-> ->] | [-> Hshock]].
  - exists rf. split; [|done].
    destruct (shock setup) as [sh|].
    + apply bind_Ok in Hrest as (rs & _ & [= <-]).
      rewrite lookup_insert_ne by done. by rewrite lookup_insert_eq.
    + injection Hrest as <-. by rewrite lookup_insert_eq.
  - rewrite Hshock in Hrest.
    apply bind_Ok in Hrest as (rs & Hs & [= <-]).
    exists rs. split; [|done]. by rewrite lookup_insert_eq.
Qed.

(** The fields of a recommendation that was produced. *)
Lemma get_component_settings_Ok specs w bt t_mod w_mod comp name r :
  get_component_settings specs w bt t_mod w_mod comp name = Ok r ->
  compute_psi w t_mod w_mod (resolve_brand_data specs comp name) = Ok (psi r)
  /\ clicks r = build_clicks w t_mod w_mod comp (resolve_brand_data specs comp name).
Proof.
  unfold get_component_settings. intros H.
  apply bind_Ok in H as (p & Hp & H).
  apply bind_Ok in H as (s & _ & H).
  apply bind_Ok in H as (sm & _ & H).
  apply bind_Ok in H as (q & _ & H).
  apply bind_Ok in H as (sp & _ & [= <-]).
  by simpl.
Qed.

(** ** Target PSI (C1) *)

Lemma int_of_float_toward_zero f : int_of_float f = toward_zero f.
Proof.
  destruct f as [s|s| |s m e]; simpl; try reflexivity. f_equal.
  destruct (Z.leb_spec 0 e) as [He|He].
  - rewrite Z.shiftl_mul_pow2 by done. destruct s; simpl; lia.
  - replace e with (- - e) at 1 by lia.
    rewrite Z.shiftl_opp_r, Z.shiftr_div_pow2 by lia.
    assert (0 < 2 ^ (- e)) by (apply Z.pow_pos_nonneg; lia).
    destruct s; simpl.
    + change (Z.neg m) with (- Z.pos m).
      rewrite Z.quot_opp_l by lia. f_equal.
      symmetry. apply Z.quot_div_nonneg; lia.
    + symmetry. apply Z.quot_div_nonneg; lia.
Qed.

Lemma int_truncated a : Py.int a = truncated a.
Proof. destruct a; simpl; [done | apply int_of_float_toward_zero]. Qed.

Lemma compute_psi_target w t_mod w_mod d :
  compute_psi w t_mod w_mod d
  = target_psi w (default (NFloat f_1_0) (psi_multiplier d))
      (psi_pct_of t_mod) (psi_pct_of w_mod).
Proof.
  unfold compute_psi, target_psi, psi_pct_of, mbind, result_bind.
  destruct (Py.mul (NFloat w) _) as [x|]; [|done].
  rewrite int_truncated. destruct (truncated x) as [b|]; [|done].
  destruct (Py.mul (NInt b) _) as [y|]; [|done].
  destruct (Py.mul y _) as [z|]; [|done].
  apply int_truncated.
Qed.

(** C1: the psi of every present component is the weight times the brand
    multiplier, truncated toward zero, then times the terrain and the
    weather percentage (a product, not a sum), truncated toward zero
    again. *)
Theorem psi_two_stage_truncation specs setup recs name comp :
  calculate_baseline specs setup = Ok recs ->
  present_component setup name = Some comp ->
  exists r,
    recs !! name = Some r
    /\ target_psi (weight_kg (rider setup)) (multiplier_of specs comp name)
         (psi_pct_of (terrain_modifier (terrain (conditions setup))))
         (psi_pct_of (weather_modifier (weather (conditions setup))))
       = Ok (psi r).
Proof.
  intros Hcalc Hpres.
  destruct (calculate_baseline_entry _ _ _ _ _ Hcalc Hpres) as (r & Hr & Hset).
  exists r. split; [done|].
  apply get_component_settings_Ok in Hset as [Hpsi _].
  unfold multiplier_of. by rewrite <- compute_psi_target.
Qed.

Lemma psi_two_stage_truncation_witness :
  calculate_baseline Sample.specs0 Sample.setup0 = Ok Sample.recs0
  /\ present_component Sample.setup0 "shock" = Some Sample.shock0
  /\ exists r,
       Sample.recs0 !! "shock" = Some r
       /\ target_psi Sample.w75 (NFloat f_1_0) f_1_05 f_1_0 = Ok (psi r).
Proof.
  split; [reflexivity|]. split; [reflexivity|].
  apply (psi_two_stage_truncation Sample.specs0 Sample.setup0 Sample.recs0
           "shock" Sample.shock0); reflexivity.
Defined.

(** ** The clicks mapping (C3, C6) *)

Section Clicks.

Variable w : float.
Variables t_mod w_mod : Modifier.
Variable comp : SuspensionComponent.
Variable d : BrandData.

Lemma lookup_set_if flag key v (m : gmap string Z) k :
  set_if flag key v m !! k
  = if flag && String.eqb key k then Some v else m !! k.
Proof.
  unfold set_if. destruct flag; simpl; [|done].
  destruct (String.eqb_spec key k) as [->|Hne].
  - by rewrite lookup_insert_eq.
  - by rewrite lookup_insert_ne.
Qed.

(** What [clicks] holds under each of the five keys, and nothing else. *)
Lemma build_clicks_lookup k :
  build_clicks w t_mod w_mod comp d !! k
  = if click_flag comp k then
      if String.eqb k "rebound" then Some (final_rebound w t_mod w_mod d)
      else if String.eqb k "lsr" then Some (final_lsr w t_mod w_mod d)
      else if String.eqb k "hsr" then Some (final_hsr w t_mod w_mod d)
      else if String.eqb k "lsc" then Some (final_lsc t_mod w_mod d)
      else Some (final_hsc t_mod w_mod d)
    else None.
Proof.
  unfold build_clicks, click_flag. rewrite !lookup_set_if, lookup_empty.
  rewrite !(String.eqb_sym _ k).
  destruct (String.eqb_spec k "rebound") as [->|_];
    [destruct (has_rebound comp), (has_lsr comp), (has_hsr comp),
       (has_lsc comp), (has_hsc comp); reflexivity|].
  destruct (String.eqb_spec k "lsr") as [->|_];
    [destruct (has_rebound comp), (has_lsr comp), (has_hsr comp),
       (has_lsc comp), (has_hsc comp); reflexivity|].
  destruct (String.eqb_spec k "hsr") as [->|_];
    [destruct (has_rebound comp), (has_lsr comp), (has_hsr comp),
       (has_lsc comp), (has_hsc comp); reflexivity|].
  destruct (String.eqb_spec k "lsc") as [->|_];
    [destruct (has_rebound comp), (has_lsr comp), (has_hsr comp),
       (has_lsc comp), (has_hsc comp); reflexivity|].
  destruct (String.eqb_spec k "hsc") as [->|_];
    [destruct (has_rebound comp), (has_lsr comp), (has_hsr comp),
       (has_lsc comp), (has_hsc comp); reflexivity|].
  rewrite !andb_false_r. reflexivity.
Qed.

Lemma build_clicks_keys k :
  is_Some (build_clicks w t_mod w_mod comp d !! k) <-> click_flag comp k = true.
Proof.
  rewrite build_clicks_lookup. destruct (click_flag comp k).
  - split; [done|]. intros _.
    repeat match goal with |- context [if ?b then _ else _] => destruct b end;
      eauto.
  - split; [intros [? ?]|]; discriminate.
Qed.

Lemma final_rebound_nonneg : 0 <= final_rebound w t_mod w_mod d.
Proof. unfold final_rebound. lia. Qed.

Lemma final_hsr_succ :
  final_hsr w t_mod w_mod d = final_rebound w t_mod w_mod d + 1.
Proof. unfold final_hsr. pose proof final_rebound_nonneg. lia. Qed.

Lemma build_clicks_nonneg k v :
  build_clicks w t_mod w_mod comp d !! k = Some v -> 0 <= v.
Proof.
  rewrite build_clicks_lookup.
  repeat match goal with |- context [if ?b then _ else _] => destruct b end;
    intros [= <-];
    unfold final_lsr, final_hsr, final_rebound, final_lsc, final_hsc; lia.
Qed.

End Clicks.

(** C3: in the recommendation of every present component, [clicks] has a
    key exactly when that key is one of rebound, lsr, hsr, lsc, hsc and the
    component's flag for it is set; with [has_lsc] false there is no
    "lsc". *)
Theorem clicks_keys_follow_flags specs setup recs name comp :
  calculate_baseline specs setup = Ok recs ->
  present_component setup name = Some comp ->
  exists r,
    recs !! name = Some r
    /\ (forall k, is_Some (clicks r !! k) <-> click_flag comp k = true)
    /\ (has_lsc comp = false -> clicks r !! "lsc" = None).
Proof.
  intros Hcalc Hpres.
  destruct (calculate_baseline_entry _ _ _ _ _ Hcalc Hpres) as (r & Hr & Hset).
  exists r. split; [done|].
  apply get_component_settings_Ok in Hset as [_ ->].
  split; [apply build_clicks_keys|].
  intros Hlsc. apply eq_None_not_Some. rewrite build_clicks_keys.
  unfold click_flag. simpl. rewrite Hlsc. discriminate.
Qed.

Lemma clicks_keys_follow_flags_witness :
  calculate_baseline Sample.specs0 Sample.setup0 = Ok Sample.recs0
  /\ present_component Sample.setup0 "shock" = Some Sample.shock0
  /\ exists r,
       Sample.recs0 !! "shock" = Some r
       /\ (forall k, is_Some (clicks r !! k) <-> click_flag Sample.shock0 k = true)
       /\ (has_lsc Sample.shock0 = false -> clicks r !! "lsc" = None).
Proof.
  split; [reflexivity|]. split; [reflexivity|].
  apply (clicks_keys_follow_flags Sample.specs0 Sample.setup0 Sample.recs0
           "shock" Sample.shock0); reflexivity.
Defined.

(** C6: whatever the terrain and the weather, every value in [clicks] is
    at least 0; rebound, lsc and hsc are the base value plus both deltas
    clamped at 0, lsr is the final rebound and hsr is the final rebound
    plus one. *)
Theorem click_values_clamped specs setup recs name comp :
  calculate_baseline specs setup = Ok recs ->
  present_component setup name = Some comp ->
  exists r,
    recs !! name = Some r
    /\ (forall k v, clicks r !! k = Some v -> 0 <= v)
    /\ let t_mod := terrain_modifier (terrain (conditions setup)) in
       let w_mod := weather_modifier (weather (conditions setup)) in
       let d := resolve_brand_data specs comp name in
       let rebound :=
         Z.max 0 (_get_dynamic_rebound d (weight_kg (rider setup))
                  + default 0 (m_rebound t_mod) + default 0 (m_rebound w_mod)) in
       let lsc :=
         Z.max 0 (default 2 (base_lsc d)
                  + default 0 (m_lsc t_mod) + default 0 (m_lsc w_mod)) in
       let hsc :=
         Z.max 0 (default 1 (base_hsc d)
                  + default 0 (m_hsc t_mod) + default 0 (m_hsc w_mod)) in
       (has_rebound comp = true -> clicks r !! "rebound" = Some rebound)
       /\ (has_lsr comp = true -> clicks r !! "lsr" = Some rebound)
       /\ (has_hsr comp = true -> clicks r !! "hsr" = Some (rebound + 1))
       /\ (has_lsc comp = true -> clicks r !! "lsc" = Some lsc)
       /\ (has_hsc comp = true -> clicks r !! "hsc" = Some hsc).
Proof.
  intros Hcalc Hpres.
  destruct (calculate_baseline_entry _ _ _ _ _ Hcalc Hpres) as (r & Hr & Hset).
  exists r. split; [done|].
  apply get_component_settings_Ok in Hset as [_ ->].
  split; [intros k v; apply build_clicks_nonneg|].
  cbv zeta. repeat split; intros Hflag; rewrite build_clicks_lookup;
    unfold click_flag; simpl; rewrite Hflag; try reflexivity.
  f_equal. apply final_hsr_succ.
Qed.

Lemma click_values_clamped_witness :
  calculate_baseline Sample.specs0 Sample.setup0 = Ok Sample.recs0
  /\ present_component Sample.setup0 "fork" = Some Sample.fork0
  /\ exists r,
       Sample.recs0 !! "fork" = Some r
       /\ (forall k v, clicks r !! k = Some v -> 0 <= v)
       /\ (has_rebound Sample.fork0 = true -> clicks r !! "rebound" = Some 8)
       /\ (has_lsr Sample.fork0 = true -> clicks r !! "lsr" = Some 8)
       /\ (has_hsr Sample.fork0 = true -> clicks r !! "hsr" = Some (8 + 1))
       /\ (has_lsc Sample.fork0 = true -> clicks r !! "lsc" = Some 4)
       /\ (has_hsc Sample.fork0 = true -> clicks r !! "hsc" = Some 2).
Proof.
  split; [reflexivity|]. split; [reflexivity|].
  apply (click_values_clamped Sample.specs0 Sample.setup0 Sample.recs0
           "fork" Sample.fork0); reflexivity.
Defined.

(** ** Weight-banded rebound (C4) *)






(** ** Construction of a setup (C7) *)

(** Whatever construction returns satisfies the field constraints and the
    hardtail rule. *)
Lemma BikeSetup_new_ok r c f s b :
  BikeSetup_new r c f s = Ok b -> BikeSetup_ok b = true.
Proof.
  unfold BikeSetup_new, BikeSetup_ok, validate_shock.
  destruct (RiderProfile_ok r) eqn:Hr, (SuspensionComponent_ok f) eqn:Hf;
    destruct s as [| |sc]; try destruct (SuspensionComponent_ok sc) eqn:Hsc;
    destruct (bike_type r) eqn:Hb; simpl; intros H; try discriminate H;
    injection H as <-; simpl; rewrite ?Hr, ?Hf, ?Hsc, ?Hb; reflexivity.
Qed.

(** C7: constructing a setup from a hardtail rider and a shock never
    returns a setup, with or without the shock.  The failure is the
    validation error when the rider's own fields are valid or the shock's
    are not; when the rider's fields are invalid and the shock's are valid
    the validator finds no rider in the validated data and the failure is
    an [AttributeError], not a validation error. *)
Theorem hardtail_with_shock_rejected r c f sc :
  bike_type r = hardtail ->
  (forall b, BikeSetup_new r c f (ShockGiven sc) <> Ok b)
  /\ (exists e, BikeSetup_new r c f (ShockGiven sc) = Raise e)
  /\ (RiderProfile_ok r = true ->
      BikeSetup_new r c f (ShockGiven sc) = Raise ValidationError)
  /\ (SuspensionComponent_ok sc = false ->
      BikeSetup_new r c f (ShockGiven sc) = Raise ValidationError)
  /\ (RiderProfile_ok r = false -> SuspensionComponent_ok sc = true ->
      BikeSetup_new r c f (ShockGiven sc) = Raise AttributeError).
Proof.
  intros Hb. unfold BikeSetup_new, validate_shock.
  destruct (RiderProfile_ok r), (SuspensionComponent_ok sc),
    (SuspensionComponent_ok f); rewrite ?Hb; simpl;
    repeat split; eauto; discriminate.
Qed.

Lemma hardtail_with_shock_rejected_witness :
  bike_type Light.rider20 = hardtail
  /\ RiderProfile_ok Light.rider20 = false
  /\ SuspensionComponent_ok Sample.shock0 = true
  /\ BikeSetup_new Light.rider20 RidingConditions_default Sample.fork0
       (ShockGiven Sample.shock0) = Raise AttributeError
  /\ BikeSetup_new Light.rider20 RidingConditions_default Sample.fork0
       ShockOmitted = Raise ValidationError.
Proof.
  split; [reflexivity|]. split; [reflexivity|]. split; [reflexivity|].
  split; [|reflexivity].
  apply (hardtail_with_shock_rejected Light.rider20 RidingConditions_default
           Sample.fork0 Sample.shock0); reflexivity.
Defined.

(** ** The stable sort *)

Lemma insert_by_priority_perm x l : Permutation (insert_by_priority x l) (x :: l).
Proof.
  induction l as [|y l IH]; simpl; [done|].
  destruct (priority x <=? priority y); [done|].
  rewrite IH. apply perm_swap.
Qed.

Lemma sort_by_priority_perm l : Permutation (sort_by_priority l) l.
Proof.
  induction l as [|x l IH]; simpl; [done|].
  rewrite insert_by_priority_perm. by constructor.
Qed.

Lemma insert_by_priority_sorted x l :
  StronglySorted by_priority l -> StronglySorted by_priority (insert_by_priority x l).
Proof.
  induction 1 as [|y l Hs IH Hy]; simpl; [by repeat constructor|].
  destruct (Z.leb_spec (priority x) (priority y)) as [Hle|Hlt].
  - constructor; [by constructor|]. constructor; [done|].
    eapply Forall_impl; [exact Hy|]. unfold by_priority. intros z Hz. simpl in *. lia.
  - constructor; [done|].
    rewrite insert_by_priority_perm. constructor; [|done].
    unfold by_priority. lia.
Qed.

Lemma sort_by_priority_sorted l : StronglySorted by_priority (sort_by_priority l).
Proof.
  induction l as [|x l IH]; simpl; [constructor|].
  by apply insert_by_priority_sorted.
Qed.

(** Stability: among solutions of one priority the original order is kept. *)
Lemma insert_by_priority_stable p x l :
  List.filter (with_priority p) (insert_by_priority x l)
  = List.filter (with_priority p) (x :: l).
Proof.
  induction l as [|y l IH]; [done|]. simpl insert_by_priority.
  destruct (Z.leb_spec (priority x) (priority y)) as [Hle|Hlt]; [done|].
  simpl in *. rewrite IH. unfold with_priority.
  destruct (Z.eqb_spec (priority x) p) as [Hx|Hx]; [|done].
  destruct (Z.eqb_spec (priority y) p) as [Hy|Hy]; [lia|done].
Qed.

Lemma sort_by_priority_stable p l :
  List.filter (with_priority p) (sort_by_priority l)
  = List.filter (with_priority p) l.
Proof.
  induction l as [|x l IH]; [done|]. simpl sort_by_priority.
  rewrite insert_by_priority_stable. simpl. by rewrite IH.
Qed.

(** ** Diagnosis (C2, C8, C10) *)

Section DiagnosticProperties.

Variable base_attr : string -> option bool.
Variable logic_db : list Problem.

Lemma diagnose_problem_found setup symptom problem comp :
  find_problem logic_db symptom = Some problem ->
  actual_comp setup problem = Some comp ->
  diagnose_problem base_attr logic_db setup symptom
  = report problem
      (sort_by_priority
         (List.filter (solution_applies base_attr comp) (solutions problem))).
Proof. unfold diagnose_problem. by intros -> ->. Qed.

(** C8: when the symptom is known and the setup has no component of the
    kind it requires, the outcome is the "component not present" error,
    a value and not an exception, and never a fix; a hardtail has no
    shock, so this is the outcome of every shock symptom for it. *)
Theorem missing_component_reported setup symptom problem :
  find_problem logic_db symptom = Some problem ->
  actual_comp setup problem = None ->
  diagnose_problem base_attr logic_db setup symptom
  = DiagError "Komponenta ne postoji na biciklu."
  /\ (forall name s0 s1,
        diagnose_problem base_attr logic_db setup symptom <> DiagFix name s0 s1)
  /\ required_component problem <> "fork"
  /\ shock setup = None.
Proof.
  intros Hfind Hcomp. unfold diagnose_problem. rewrite Hfind, Hcomp.
  split; [done|]. split; [done|].
  unfold actual_comp in Hcomp.
  destruct (String.eqb_spec (required_component problem) "fork"); [done|].
  by split.
Qed.

(** A shock symptom on a hardtail that construction accepted. *)
Lemma hardtail_shock_symptom setup symptom problem :
  BikeSetup_ok setup = true ->
  bike_type (rider setup) = hardtail ->
  find_problem logic_db symptom = Some problem ->
  required_component problem = "shock" ->
  diagnose_problem base_attr logic_db setup symptom
  = DiagError "Komponenta ne postoji na biciklu.".
Proof.
  intros Hok Hb Hfind Hreq. unfold diagnose_problem, actual_comp.
  rewrite Hfind, Hreq. simpl.
  unfold BikeSetup_ok in Hok. rewrite Hb in Hok.
  destruct (shock setup); [|done].
  rewrite andb_false_r in Hok. by rewrite andb_false_r in Hok.
Qed.


(** C2, as the code has it: with a known symptom and its component
    present, the solutions that apply (sentinel "always_true", or a
    [logic_check] naming an attribute of the component whose value is
    truthy) are ranked ascending by priority, equal priorities keeping
    their original order; the first is [primary_fix], the second, if any,
    [secondary_fix]; with priorities 3, 1, 2 and every check
    "always_true", the fixes are the priority-1 and the priority-2
    solution. *)
Theorem diagnose_ranks_applicable setup symptom problem comp :
  find_problem logic_db symptom = Some problem ->
  actual_comp setup problem = Some comp ->
  let applying :=
    List.filter (solution_applies base_attr comp) (solutions problem) in
  exists ranked,
    Permutation ranked applying
    /\ StronglySorted by_priority ranked
    /\ (forall p, List.filter (with_priority p) ranked
                  = List.filter (with_priority p) applying)
    /\ diagnose_problem base_attr logic_db setup symptom
       = match ranked with
         | [] => DiagResult "Nema rješenja, posjeti servis."
         | primary :: rest =>
             DiagFix (symptom_name problem) primary (List.head rest)
         end
    /\ (forall s3 s1 s2,
          solutions problem = [s3; s1; s2] ->
          priority s3 = 3 -> priority s1 = 1 -> priority s2 = 2 ->
          logic_check s3 = "always_true" ->
          logic_check s1 = "always_true" ->
          logic_check s2 = "always_true" ->
          diagnose_problem base_attr logic_db setup symptom
          = DiagFix (symptom_name problem) s1 (Some s2)).
Proof.
  intros Hfind Hcomp applying.
  exists (sort_by_priority applying).
  split; [apply sort_by_priority_perm|].
  split; [apply sort_by_priority_sorted|].
  split; [intros p; apply sort_by_priority_stable|].
  rewrite (diagnose_problem_found _ _ _ _ Hfind Hcomp).
  split; [done|].
  intros s3 s1 s2 Hsol H3 H1 H2 Hc3 Hc1 Hc2.
  rewrite Hsol. cbn [List.filter]. unfold solution_applies.
  rewrite Hc3, Hc1, Hc2. do 3 (simpl; rewrite ?H3, ?H1, ?H2). done.
Qed.

End DiagnosticProperties.

Lemma missing_component_reported_witness :
  find_problem Sample.logic_db0 "shock_wallow" = Some Sample.wallow
  /\ actual_comp Sample.setup_hardtail Sample.wallow = None
  /\ diagnose_problem Sample.no_base_attr Sample.logic_db0 Sample.setup_hardtail
       "shock_wallow"
     = DiagError "Komponenta ne postoji na biciklu.".
Proof.
  split; [reflexivity|]. split; [reflexivity|].
  apply (missing_component_reported Sample.no_base_attr Sample.logic_db0
           Sample.setup_hardtail "shock_wallow" Sample.wallow); reflexivity.
Defined.


Lemma diagnose_ranks_applicable_witness :
  find_problem Sample.logic_db0 "fork_bottom_out" = Some Sample.bottom_out
  /\ actual_comp Sample.setup0 Sample.bottom_out = Some Sample.fork0
  /\ diagnose_problem Sample.no_base_attr Sample.logic_db0 Sample.setup0
       "fork_bottom_out"
     = DiagFix "Fork bottoms out" Sample.by_rebound (Some Sample.by_pressure).
Proof.
  split; [reflexivity|]. split; [reflexivity|].
  destruct (diagnose_ranks_applicable Sample.no_base_attr Sample.logic_db0
              Sample.setup0 "fork_bottom_out" Sample.bottom_out Sample.fork0
              eq_refl eq_refl) as (ranked & _ & _ & _ & _ & Hexample).
  apply (Hexample Sample.by_service Sample.by_rebound Sample.by_pressure);
    reflexivity.
Defined.

(** The filter is not restricted to capability flags: "brand" is no flag,
    yet the solution that checks it is kept and, having the lowest
    priority number, becomes [primary_fix]; filtering by flags alone would
    leave only the "always_true" solution. *)
Lemma flag_filter_counterexample :
  find_problem Sample.logic_db0 "fork_harsh" = Some Sample.harsh
  /\ actual_comp Sample.setup0 Sample.harsh = Some Sample.fork0
  /\ diagnose_problem Sample.no_base_attr Sample.logic_db0 Sample.setup0
       "fork_harsh"
     = DiagFix "Fork feels harsh" Sample.by_brand (Some Sample.by_pressure)
  /\ report Sample.harsh
       (sort_by_priority
          (List.filter (flag_applies Sample.fork0) (solutions Sample.harsh)))
     = DiagFix "Fork feels harsh" Sample.by_pressure None.
Proof. repeat split. Qed.

(** ** Binary64 arithmetic: rounding is monotone *)

(** *** The number of binary digits *)

Lemma digits2_pos_log2 m : Zpos (digits2_pos m) = Z.log2 (Zpos m) + 1.
Proof.
  induction m as [m IH|m IH|]; simpl digits2_pos; try reflexivity.
  - rewrite Pos2Z.inj_succ, IH.
    change (Z.pos m~1) with (2 * Z.pos m + 1).
    rewrite Z.log2_succ_double by lia. lia.
  - rewrite Pos2Z.inj_succ, IH.
    change (Z.pos m~0) with (2 * Z.pos m).
    rewrite Z.log2_double by lia. lia.
Qed.

Lemma Zdigits2_log2 v : 0 < v -> Zdigits2 v = Z.log2 v + 1.
Proof. destruct v; try lia. intros _. apply digits2_pos_log2. Qed.

Lemma Zdigits2_bounds v : 0 < v -> 2 ^ (Zdigits2 v - 1) <= v < 2 ^ Zdigits2 v.
Proof.
  intros Hv. rewrite Zdigits2_log2 by done.
  replace (Z.log2 v + 1 - 1) with (Z.log2 v) by lia.
  replace (Z.log2 v + 1) with (Z.succ (Z.log2 v)) by lia.
  apply Z.log2_spec. done.
Qed.

Lemma Zdigits2_nonneg v : 0 <= v -> 0 <= Zdigits2 v.
Proof. destruct v; simpl; lia. Qed.

Lemma Zdigits2_mono a b : 0 <= a <= b -> Zdigits2 a <= Zdigits2 b.
Proof.
  intros [Ha Hab]. destruct (Z.eq_dec a 0) as [->|Hne].
  - apply Zdigits2_nonneg. lia.
  - rewrite !Zdigits2_log2 by lia. pose proof (Z.log2_le_mono a b Hab). lia.
Qed.

Lemma Zdigits2_mul_pow2 v k : 0 < v -> 0 <= k -> Zdigits2 (v * 2 ^ k) = Zdigits2 v + k.
Proof.
  intros Hv Hk. assert (0 < 2 ^ k) by (apply Z.pow_pos_nonneg; lia).
  rewrite !Zdigits2_log2 by nia. rewrite Z.log2_mul_pow2 by lia. lia.
Qed.

Lemma Zdigits2_lt_pow2 v k : 0 <= v -> 0 <= k -> v < 2 ^ k -> Zdigits2 v <= k.
Proof.
  intros Hv Hk Hlt. destruct (Z.eq_dec v 0) as [->|Hne]; [simpl; lia|].
  rewrite Zdigits2_log2 by lia.
  assert (Z.log2 v < k) by (apply Z.log2_lt_pow2; lia). lia.
Qed.

Lemma Zdigits2_ge_pow2 v k : 0 <= k -> 2 ^ k <= v -> k + 1 <= Zdigits2 v.
Proof.
  intros Hk Hle. assert (0 < 2 ^ k) by (apply Z.pow_pos_nonneg; lia).
  rewrite Zdigits2_log2 by lia.
  assert (k <= Z.log2 v) by (apply Z.log2_le_pow2; lia). lia.
Qed.

(** *** Rounding to nearest, ties to even *)

Lemma pow2_pos k : 0 <= k -> 0 < 2 ^ k.
Proof. intros. apply Z.pow_pos_nonneg; lia. Qed.

Lemma rne_bounds v t : v / 2 ^ t <= rne v t <= v / 2 ^ t + 1.
Proof.
  unfold rne. destruct (_ ?= _); [destruct (Z.even _)| |]; lia.
Qed.

Lemma rne_mono a b t : 0 <= t -> a <= b -> rne a t <= rne b t.
Proof.
  intros Ht Hab. pose proof (pow2_pos t Ht) as Hp.
  assert (Hq : a / 2 ^ t <= b / 2 ^ t) by (apply Z.div_le_mono; lia).
  destruct (Z.eq_dec (a / 2 ^ t) (b / 2 ^ t)) as [Heq|Hne].
  - assert (Hr : a mod 2 ^ t <= b mod 2 ^ t).
    { rewrite !Z.mod_eq by lia. rewrite Heq. lia. }
    unfold rne. rewrite Heq.
    destruct (Z.compare_spec (2 * (a mod 2 ^ t)) (2 ^ t)),
      (Z.compare_spec (2 * (b mod 2 ^ t)) (2 ^ t));
      destruct (Z.even (b / 2 ^ t)); lia.
  - pose proof (rne_bounds a t). pose proof (rne_bounds b t). lia.
Qed.

Lemma rne_scale v t k : 0 <= t -> 0 <= k -> rne (v * 2 ^ k) (t + k) = rne v t.
Proof.
  intros Ht Hk. pose proof (pow2_pos t Ht). pose proof (pow2_pos k Hk).
  unfold rne. rewrite Z.pow_add_r by lia.
  rewrite Z.div_mul_cancel_r by lia.
  rewrite Z.mul_mod_distr_r by lia.
  replace (2 * (v mod 2 ^ t * 2 ^ k)) with (2 * (v mod 2 ^ t) * 2 ^ k) by ring.
  destruct (Z.compare_spec (2 * (v mod 2 ^ t) * 2 ^ k) (2 ^ t * 2 ^ k)),
    (Z.compare_spec (2 * (v mod 2 ^ t)) (2 ^ t)); try reflexivity; nia.
Qed.

Lemma rne_exact a t : 0 <= t -> rne (a * 2 ^ t) t = a.
Proof.
  intros Ht. pose proof (pow2_pos t Ht). unfold rne.
  rewrite Z.mod_mul, Z.div_mul by lia.
  destruct (Z.compare_spec (2 * 0) (2 ^ t)); lia.
Qed.

Lemma rne_nonneg v t : 0 <= t -> 0 <= v -> 0 <= rne v t.
Proof.
  intros Ht Hv. pose proof (pow2_pos t Ht). pose proof (rne_bounds v t).
  assert (0 <= v / 2 ^ t) by (apply Z.div_pos; lia). lia.
Qed.

(** *** The shift of [binary_round_aux] computes [rne] *)

Lemma shr_inv_0 M : shr_inv M 0 {| shr_m := M; shr_r := false; shr_s := false |}.
Proof.
  unfold shr_inv. simpl. rewrite Z.div_1_r, Z.mod_1_r. done.
Qed.

Lemma shr_1_inv M k mrs :
  0 <= M -> 0 <= k -> shr_inv M k mrs -> shr_inv M (k + 1) (shr_1 mrs).
Proof.
  intros HM Hk (Hm & Hr & Hs). pose proof (pow2_pos k Hk) as Hp.
  destruct mrs as [m r s]. simpl in Hm, Hr, Hs.
  assert (Hrem : 0 <= M mod 2 ^ k < 2 ^ k) by (apply Z.mod_pos_bound; lia).
  assert (Hm0 : 0 <= m) by (subst m; apply Z.div_pos; lia).
  assert (Hpow : 2 ^ (k + 1) = 2 ^ k * 2) by (rewrite Z.pow_add_r by lia; lia).
  assert (Hq : M / 2 ^ (k + 1) = m / 2).
  { rewrite Hpow, <- Z.div_div by lia. by rewrite Hm. }
  assert (Hmod : M mod 2 ^ (k + 1) = M mod 2 ^ k + 2 ^ k * (m mod 2)).
  { rewrite Hpow, Z.rem_mul_r by lia. by rewrite Hm. }
  assert (Hors : r || s = negb (M mod 2 ^ k =? 0)).
  { rewrite Hr, Hs.
    destruct (Z.leb_spec (2 ^ k) (2 * (M mod 2 ^ k))),
      (Z.eqb_spec (M mod 2 ^ k) 0), (Z.eqb_spec (2 * (M mod 2 ^ k)) (2 ^ k));
      simpl; lia || done. }
  unfold shr_inv. rewrite Hq, Hmod, Hpow.
  assert (Hcase : (m / 2 = 0 /\ m mod 2 = 0 /\ m = 0) \/
                  (exists p, m = Zpos p~0 /\ m / 2 = Zpos p /\ m mod 2 = 0) \/
                  (m = 1 /\ m / 2 = 0 /\ m mod 2 = 1) \/
                  (exists p, m = Zpos p~1 /\ m / 2 = Zpos p /\ m mod 2 = 1)).
  { destruct m as [|[p|p|]|]; try lia.
    - left. done.
    - right; right; right. exists p. 
      change (Z.pos p~1) with (2 * Z.pos p + 1).
      repeat split; [symmetry; apply (Z.div_unique _ 2 _ 1); lia
                    | symmetry; apply (Z.mod_unique _ 2 (Z.pos p) 1); lia].
    - right; left. exists p.
      change (Z.pos p~0) with (2 * Z.pos p).
      repeat split; [symmetry; apply (Z.div_unique _ 2 _ 0); lia
                    | symmetry; apply (Z.mod_unique _ 2 (Z.pos p) 0); lia].
    - right; right; left. done. }
  destruct Hcase as [(H1 & H2 & ->) | [(p & -> & H1 & H2) | [(-> & H1 & H2) | (p & -> & H1 & H2)]]];
    simpl shr_1; simpl shr_m; simpl shr_r; simpl shr_s;
    rewrite ?H1, ?H2, Hors;
    (split; [done|]);
    destruct (Z.leb_spec (2 ^ k * 2) (2 * (M mod 2 ^ k + 2 ^ k * 0)));
    destruct (Z.leb_spec (2 ^ k * 2) (2 * (M mod 2 ^ k + 2 ^ k * 1)));
    destruct (Z.eqb_spec (M mod 2 ^ k) 0);
    destruct (Z.eqb_spec (M mod 2 ^ k + 2 ^ k * 0) 0);
    destruct (Z.eqb_spec (M mod 2 ^ k + 2 ^ k * 1) 0);
    destruct (Z.eqb_spec (2 * (M mod 2 ^ k + 2 ^ k * 0)) (2 ^ k * 2));
    destruct (Z.eqb_spec (2 * (M mod 2 ^ k + 2 ^ k * 1)) (2 ^ k * 2));
    simpl; (split; [try done; lia | try done; lia]).
Qed.

Lemma iter_shr_1_inv M p : 0 <= M -> forall k mrs,
  0 <= k -> shr_inv M k mrs -> shr_inv M (k + Zpos p) (SpecFloat.iter_pos shr_1 p mrs).
Proof.
  intros HM. induction p as [p IH|p IH|]; intros k mrs Hk Hinv; simpl SpecFloat.iter_pos.
  - replace (k + Z.pos p~1) with (k + 1 + Z.pos p + Z.pos p) by lia.
    apply IH; [lia|]. apply IH; [lia|]. by apply shr_1_inv.
  - replace (k + Z.pos p~0) with (k + Z.pos p + Z.pos p) by lia.
    apply IH; [lia|]. by apply IH.
  - by apply shr_1_inv.
Qed.

Lemma shr_spec M e n :
  0 <= M -> 0 <= n ->
  exists mrs, shr {| shr_m := M; shr_r := false; shr_s := false |} e n = (mrs, e + n)
              /\ shr_inv M n mrs.
Proof.
  intros HM Hn. destruct n as [|p|p]; [| |lia]; simpl shr.
  - eexists. split; [by rewrite Z.add_0_r|]. apply shr_inv_0.
  - eexists. split; [done|].
    apply (iter_shr_1_inv M p HM 0); [lia|]. apply shr_inv_0.
Qed.

Lemma shr_nonpos mrs e n : n <= 0 -> shr mrs e n = (mrs, e).
Proof. destruct n; [done|lia|done]. Qed.

Lemma round_nearest_even_inv M k mrs :
  0 <= M -> 0 <= k -> shr_inv M k mrs ->
  round_nearest_even (shr_m mrs) (loc_of_shr_record mrs) = rne M k.
Proof.
  intros HM Hk (Hm & Hr & Hs). pose proof (pow2_pos k Hk).
  destruct mrs as [m r s]. simpl in *. unfold rne. rewrite <- Hm.
  assert (0 <= M mod 2 ^ k < 2 ^ k) by (apply Z.mod_pos_bound; lia).
  destruct (Z.compare_spec (2 * (M mod 2 ^ k)) (2 ^ k));
    destruct (Z.leb_spec (2 ^ k) (2 * (M mod 2 ^ k)));
    destruct (Z.eqb_spec (M mod 2 ^ k) 0);
    destruct (Z.eqb_spec (2 * (M mod 2 ^ k)) (2 ^ k));
    try lia; subst r s; simpl; reflexivity.
Qed.

Lemma fexp_eq x : fexp prec emax x = Z.max (x - 53) (-1074).
Proof. reflexivity. Qed.

Lemma binary_round_aux_spec s m e :
  let E := fexp prec emax (Zdigits2 (Zpos m) + e) in
  e <= E ->
  binary_round_aux prec emax s (Zpos m) e loc_Exact
  = round_mag s (rne (Zpos m) (E - e)) E
  /\ 0 <= rne (Zpos m) (E - e) <= 2 ^ 53.
Proof.
  intros E HE. unfold binary_round_aux, shr_fexp. fold E.
  simpl shr_record_of_loc.
  destruct (shr_spec (Zpos m) e (E - e)) as (mrs & -> & Hinv); [lia..|].
  replace (e + (E - e)) with E by lia.
  rewrite (round_nearest_even_inv (Z.pos m) (E - e) mrs ltac:(lia) ltac:(lia) Hinv).
  set (q := rne (Z.pos m) (E - e)).
  assert (HEmin : -1074 <= E) by (unfold E; rewrite fexp_eq; lia).
  assert (Hq : 0 <= q <= 2 ^ 53).
  { split; [apply rne_nonneg; lia|].
    pose proof (rne_bounds (Z.pos m) (E - e)). fold q in H.
    pose proof (Zdigits2_bounds (Z.pos m) ltac:(lia)) as [_ Hd].
    assert (Hn : Zdigits2 (Z.pos m) - 53 <= E - e)
      by (unfold E; rewrite fexp_eq; lia).
    assert (Z.pos m / 2 ^ (E - e) < 2 ^ 53); [|lia].
    apply Z.div_lt_upper_bound; [apply pow2_pos; lia|].
    rewrite <- Z.pow_add_r by lia.
    eapply Z.lt_le_trans; [exact Hd|].
    apply Z.pow_le_mono_r; lia. }
  split; [|done].
  destruct (Z.eq_dec q 0) as [Hq0|Hq0].
  - rewrite Hq0. simpl Zdigits2. rewrite shr_nonpos; [done|].
    rewrite fexp_eq. lia.
  - destruct (Z.ltb_spec q (2 ^ 53)) as [Hlt|Hge].
    + rewrite shr_nonpos.
      2:{ rewrite fexp_eq.
          pose proof (Zdigits2_lt_pow2 q 53 ltac:(lia) ltac:(lia) Hlt). lia. }
      simpl shr_m. unfold round_mag.
      destruct q as [|p|p]; [lia| |lia].
      destruct (Z.ltb_spec (Z.pos p) (2 ^ 53)); [|lia]. reflexivity.
    + assert (Hq53 : q = 2 ^ 53) by lia. rewrite Hq53.
      replace (fexp prec emax (Zdigits2 (2 ^ 53) + E) - E) with 1
        by (rewrite fexp_eq; change (Zdigits2 (2 ^ 53)) with 54; lia).
      reflexivity.
Qed.

(** *** Rounding is monotone across exponents *)

Lemma Rnd_scaled v :
  let t := Z.max (Zdigits2 v - 53) 1074 in
  Rnd v * 2 ^ 1074 = rne v t * 2 ^ t.
Proof.
  intros t. unfold Rnd. fold t. rewrite <- Z.mul_assoc, <- Z.pow_add_r by lia.
  by replace (t - 1074 + 1074) with t by lia.
Qed.

Lemma Rnd_nonneg v : 0 <= v -> 0 <= Rnd v.
Proof.
  intros Hv. unfold Rnd. apply Z.mul_nonneg_nonneg.
  - apply rne_nonneg; lia.
  - apply Z.pow_nonneg. lia.
Qed.

Lemma Rnd_0 : Rnd 0 = 0.
Proof. reflexivity. Qed.

Lemma rne_upper v t k : 0 <= t -> t <= k -> 0 <= v < 2 ^ k -> rne v t * 2 ^ t <= 2 ^ k.
Proof.
  intros Ht Hk Hv. pose proof (pow2_pos t Ht).
  pose proof (rne_bounds v t) as [_ Hr].
  assert (v / 2 ^ t < 2 ^ (k - t)).
  { apply Z.div_lt_upper_bound; [done|].
    rewrite <- Z.pow_add_r by lia. replace (t + (k - t)) with k by lia. lia. }
  replace (2 ^ k) with (2 ^ (k - t) * 2 ^ t)
    by (rewrite <- Z.pow_add_r by lia; f_equal; lia).
  apply Z.mul_le_mono_nonneg_r; lia.
Qed.

Lemma rne_lower v t k : 0 <= t -> t <= k -> 2 ^ k <= v -> 2 ^ k <= rne v t * 2 ^ t.
Proof.
  intros Ht Hk Hv. pose proof (pow2_pos t Ht).
  pose proof (rne_bounds v t) as [Hr _].
  assert (2 ^ (k - t) <= v / 2 ^ t).
  { apply Z.div_le_lower_bound; [done|].
    rewrite <- Z.pow_add_r by lia. replace (t + (k - t)) with k by lia. lia. }
  replace (2 ^ k) with (2 ^ (k - t) * 2 ^ t)
    by (rewrite <- Z.pow_add_r by lia; f_equal; lia).
  apply Z.mul_le_mono_nonneg_r; lia.
Qed.

Lemma Rnd_mono a b : 0 <= a <= b -> Rnd a <= Rnd b.
Proof.
  intros [Ha Hab].
  destruct (Z.eq_dec a 0) as [->|Hne]; [rewrite Rnd_0; apply Rnd_nonneg; lia|].
  pose proof (Zdigits2_mono a b ltac:(lia)) as Hd.
  pose proof (Zdigits2_bounds a ltac:(lia)) as [_ Hua].
  pose proof (Zdigits2_bounds b ltac:(lia)) as [Hlb _].
  pose proof (Zdigits2_nonneg a ltac:(lia)).
  apply (Z.mul_le_mono_pos_r _ _ (2 ^ 1074)); [by apply pow2_pos|].
  rewrite !Rnd_scaled.
  set (ta := Z.max (Zdigits2 a - 53) 1074).
  set (tb := Z.max (Zdigits2 b - 53) 1074).
  destruct (Z.eq_dec ta tb) as [Heq|Hlt].
  - rewrite Heq. apply Z.mul_le_mono_nonneg_r; [apply Z.pow_nonneg; lia|].
    apply rne_mono; lia.
  - assert (ta < tb) by lia.
    transitivity (2 ^ (Zdigits2 b - 1)).
    + transitivity (2 ^ Z.max (Zdigits2 a) ta).
      * apply rne_upper; [lia..|]. split; [lia|].
        eapply Z.lt_le_trans; [exact Hua|]. apply Z.pow_le_mono_r; lia.
      * apply Z.pow_le_mono_r; lia.
    + apply rne_lower; lia.
Qed.

(** *** The operations of the calculator on ranks *)

Lemma INF_pos : 0 < INF.
Proof. by apply pow2_pos. Qed.

Lemma pow2_split a b : 0 <= a -> 0 <= b -> 2 ^ (a + b) = 2 ^ a * 2 ^ b.
Proof. intros. by apply Z.pow_add_r. Qed.

(** [q * 2^(E+1074)] against the overflow threshold. *)
Lemma below_INF q E : 0 <= q < 2 ^ 53 -> -1074 <= E <= 971 -> q * 2 ^ (E + 1074) < INF.
Proof.
  intros Hq HE. unfold INF.
  replace 2098 with (53 + 2045) by lia. rewrite (pow2_split 53 2045) by lia.
  assert (0 < 2 ^ (E + 1074) <= 2 ^ 2045).
  { split; [apply pow2_pos; lia | apply Z.pow_le_mono_r; lia]. }
  assert (0 < 2 ^ 2045) by (by apply pow2_pos).
  apply Z.le_lt_trans with (q * 2 ^ 2045).
  - apply Z.mul_le_mono_nonneg_l; lia.
  - apply Z.mul_lt_mono_pos_r; lia.
Qed.

Lemma above_INF q E : 2 ^ 52 <= q -> 972 <= E -> INF <= q * 2 ^ (E + 1074).
Proof.
  intros Hq HE. unfold INF.
  replace 2098 with (52 + 2046) by lia. rewrite (pow2_split 52 2046) by lia.
  assert (0 < 2 ^ 2046 <= 2 ^ (E + 1074)).
  { split; [by apply pow2_pos | apply Z.pow_le_mono_r; lia]. }
  assert (0 < 2 ^ 52) by (by apply pow2_pos).
  apply Z.mul_le_mono_nonneg; lia.
Qed.

Lemma above_INF_carry q E : 2 ^ 53 <= q -> 971 <= E -> INF <= q * 2 ^ (E + 1074).
Proof.
  intros Hq HE. unfold INF.
  replace 2098 with (53 + 2045) by lia. rewrite (pow2_split 53 2045) by lia.
  assert (0 < 2 ^ 2045 <= 2 ^ (E + 1074)).
  { split; [by apply pow2_pos | apply Z.pow_le_mono_r; lia]. }
  assert (0 < 2 ^ 53) by (by apply pow2_pos).
  apply Z.mul_le_mono_nonneg; lia.
Qed.

(** What validity says about a finite float. *)
Lemma valid_finite s m e :
  is_float (S754_finite s m e) = true ->
  -1074 <= e <= 971
  /\ Zdigits2 (Zpos m) <= 53
  /\ (-1074 < e -> Zdigits2 (Zpos m) = 53).
Proof.
  unfold is_float, valid_binary, bounded, canonical_mantissa.
  intros [Hc He]%andb_prop. apply Z.eqb_eq in Hc. apply Z.leb_le in He.
  rewrite fexp_eq in Hc. change (Z.pos (digits2_pos m)) with (Zdigits2 (Z.pos m)) in Hc.
  change (emax - prec) with 971 in He. lia.
Qed.

Lemma finite_is_float s m e :
  -1074 <= e <= 971 ->
  Zdigits2 (Zpos m) <= 53 ->
  (-1074 < e -> Zdigits2 (Zpos m) = 53) ->
  is_float (S754_finite s m e) = true.
Proof.
  intros He Hd Hn. unfold is_float, valid_binary, bounded, canonical_mantissa.
  apply andb_true_intro. split.
  - apply Z.eqb_eq. rewrite fexp_eq.
    change (Z.pos (digits2_pos m)) with (Zdigits2 (Z.pos m)). lia.
  - apply Z.leb_le. change (emax - prec) with 971. lia.
Qed.

Lemma round_mag_props q E :
  0 <= q <= 2 ^ 53 -> -1074 <= E -> (-1074 < E -> 2 ^ 52 <= q) ->
  rank (round_mag false q E) = Z.min (q * 2 ^ (E + 1074)) INF
  /\ is_float (round_mag false q E) = true
  /\ nonneg (round_mag false q E) = true.
Proof.
  intros Hq HE Hnorm. pose proof INF_pos.
  destruct q as [|p|p]; [simpl; split; [lia|done]| |lia].
  unfold round_mag.
  destruct (Z.ltb_spec (Z.pos p) (2 ^ 53)) as [Hlt|Hge].
  - destruct (Z.leb_spec E 971) as [Hle|Hgt].
    + pose proof (below_INF (Z.pos p) E ltac:(lia) ltac:(lia)).
      split; [simpl; lia|]. split; [|done].
      apply finite_is_float; [lia| |].
      * apply Zdigits2_lt_pow2; lia.
      * intros HE'. pose proof (Zdigits2_lt_pow2 (Z.pos p) 53 ltac:(lia) ltac:(lia) Hlt).
        pose proof (Zdigits2_ge_pow2 (Z.pos p) 52 ltac:(lia) (Hnorm HE')). lia.
    + pose proof (above_INF (Z.pos p) E ltac:(lia) ltac:(lia)).
      split; [simpl; lia|done].
  - assert (Hp : Z.pos p = 2 ^ 53) by lia. rewrite Hp.
    destruct (Z.leb_spec (E + 1) 971) as [Hle|Hgt].
    + pose proof (below_INF (2 ^ 52) (E + 1) ltac:(lia) ltac:(lia)) as Hb.
      assert (Heq : Z.pos (2 ^ 52) * 2 ^ (E + 1 + 1074) = 2 ^ 53 * 2 ^ (E + 1074)).
      { replace (E + 1 + 1074) with (1 + (E + 1074)) by lia.
        rewrite pow2_split by lia. lia. }
      split; [simpl rank; rewrite Heq; change (Z.pos (2 ^ 52)) with (2 ^ 52) in Hb;
              change (Z.pos (2 ^ 52)) with (2 ^ 52) in Heq; lia|].
      split; [|done]. apply finite_is_float; [lia| |]; done.
    + pose proof (above_INF_carry (2 ^ 53) E ltac:(lia) ltac:(lia)).
      split; [simpl; lia|done].
Qed.

(** Rounding a positive value [m * 2^e], in terms of ranks. *)
Lemma binary_round_aux_rank m e :
  -2148 <= e ->
  e <= fexp prec emax (Zdigits2 (Zpos m) + e) ->
  let r := binary_round_aux prec emax false (Zpos m) e loc_Exact in
  rank r = Z.min (Rnd (Zpos m * 2 ^ (e + 2148))) INF
  /\ is_float r = true
  /\ nonneg r = true.
Proof.
  intros He HE r.
  destruct (binary_round_aux_spec false m e HE) as [Hr Hq].
  fold r in Hr. rewrite Hr. revert HE Hq. rewrite fexp_eq.
  set (d := Zdigits2 (Z.pos m)). set (E := Z.max (d + e - 53) (-1074)).
  intros HE Hq.
  pose proof (Zdigits2_bounds (Z.pos m) ltac:(lia)) as [Hlow _]. fold d in Hlow.
  assert (Hnorm : -1074 < E -> 2 ^ 52 <= rne (Z.pos m) (E - e)).
  { intros HEn. assert (Hn : E - e = d - 53) by lia.
    pose proof (rne_bounds (Z.pos m) (E - e)) as [Hb _].
    assert (2 ^ 52 <= Z.pos m / 2 ^ (E - e)); [|lia].
    apply Z.div_le_lower_bound; [apply pow2_pos; lia|].
    rewrite <- pow2_split by lia.
    by replace (E - e + 52) with (d - 1) by lia. }
  destruct (round_mag_props _ E Hq ltac:(lia) Hnorm) as (Hrank & Hval & Hnn).
  split; [|done]. rewrite Hrank. f_equal.
  unfold Rnd. rewrite Zdigits2_mul_pow2 by lia. fold d.
  replace (Z.max (d + (e + 2148) - 53) 1074) with (E - e + (e + 2148)) by lia.
  rewrite rne_scale by lia. f_equal. f_equal. lia.
Qed.

(** The product of two non-negative finite floats. *)
Lemma float_mul_rank x y :
  is_float x = true -> is_float y = true ->
  nonneg x = true -> nonneg y = true ->
  rank x < INF -> rank y < INF ->
  rank (float_mul x y) = Z.min (Rnd (rank x * rank y)) INF
  /\ is_float (float_mul x y) = true
  /\ nonneg (float_mul x y) = true.
Proof.
  intros Hvx Hvy Hnx Hny Hfx Hfy. pose proof INF_pos. unfold float_mul.
  destruct x as [sx|sx| |sx mx ex], y as [sy|sy| |sy my ey];
    simpl in Hnx, Hny; try discriminate Hnx; try discriminate Hny;
    try (destruct sx; [discriminate Hnx | simpl in Hfx; lia]);
    try (destruct sy; [discriminate Hny | simpl in Hfy; lia]);
    try (simpl; rewrite ?Z.mul_0_r, ?Z.mul_0_l, ?Rnd_0; split; [lia|done]).
  destruct sx; [discriminate Hnx|]. destruct sy; [discriminate Hny|].
  destruct (valid_finite _ _ _ Hvx) as (Hex & Hdx & Hnx').
  destruct (valid_finite _ _ _ Hvy) as (Hey & Hdy & Hny').
  pose proof (Zdigits2_bounds (Z.pos mx) ltac:(lia)) as [Hlx _].
  pose proof (Zdigits2_bounds (Z.pos my) ltac:(lia)) as [Hly _].
  assert (Hd1x : 1 <= Zdigits2 (Z.pos mx)) by (simpl; lia).
  assert (Hd1y : 1 <= Zdigits2 (Z.pos my)) by (simpl; lia).
  assert (HD : Zdigits2 (Z.pos mx) + Zdigits2 (Z.pos my) - 1
               <= Zdigits2 (Z.pos (mx * my))).
  { pose proof (Zdigits2_ge_pow2 (Z.pos (mx * my))
                  (Zdigits2 (Z.pos mx) - 1 + (Zdigits2 (Z.pos my) - 1))
                  ltac:(lia)) as Hge.
    rewrite pow2_split in Hge by lia. rewrite Pos2Z.inj_mul in Hge.
    assert (0 < 2 ^ (Zdigits2 (Z.pos mx) - 1)) by (apply pow2_pos; lia).
    assert (0 < 2 ^ (Zdigits2 (Z.pos my) - 1)) by (apply pow2_pos; lia).
    rewrite Pos2Z.inj_mul.
    assert (2 ^ (Zdigits2 (Z.pos mx) - 1) * 2 ^ (Zdigits2 (Z.pos my) - 1)
            <= Z.pos mx * Z.pos my) by (apply Z.mul_le_mono_nonneg; lia).
    specialize (Hge ltac:(assumption)). lia. }
  simpl SFmul.
  assert (Hpre : ex + ey <= fexp prec emax (Zdigits2 (Z.pos (mx * my)) + (ex + ey)))
    by (rewrite fexp_eq; lia).
  destruct (binary_round_aux_rank (mx * my) (ex + ey) ltac:(lia) Hpre)
    as (Hrank & Hval & Hnn).
  split; [|done]. rewrite Hrank. f_equal. f_equal. simpl rank.
  rewrite Pos2Z.inj_mul.
  replace (ex + ey + 2148) with ((ex + 1074) + (ey + 1074)) by lia.
  rewrite pow2_split by lia. ring.
Qed.

Lemma finite_rank_lt s m e :
  is_float (S754_finite s m e) = true -> Zpos m * 2 ^ (e + 1074) < INF.
Proof.
  intros (He & Hd & _)%valid_finite.
  apply below_INF; [|lia]. split; [lia|].
  pose proof (Zdigits2_bounds (Z.pos m) ltac:(lia)) as [_ Hu].
  eapply Z.lt_le_trans; [exact Hu|]. apply Z.pow_le_mono_r; lia.
Qed.

(** A float that is not an infinity lies below the threshold. *)
Lemma rank_lt_INF x :
  is_float x = true -> nonneg x = true ->
  (forall s, x <> S754_infinity s) -> 0 <= rank x < INF.
Proof.
  intros Hv Hn Hinf. pose proof INF_pos.
  destruct x as [s|s| |s m e]; simpl in Hn; simpl rank;
    try lia; try discriminate.
  - by destruct (Hinf s).
  - destruct s; [discriminate|]. simpl.
    pose proof (finite_rank_lt _ _ _ Hv).
    assert (0 < 2 ^ (e + 1074)); [|lia].
    apply pow2_pos. apply valid_finite in Hv. lia.
Qed.

Lemma rank_nonneg x : nonneg x = true -> 0 <= rank x.
Proof.
  pose proof INF_pos.
  destruct x as [s|s| |s m e]; simpl; try lia; try discriminate;
    destruct s; try discriminate; simpl; intros _; lia.
Qed.

(** [float(z)] for a non-negative [int]. *)
Lemma binary_normalize_rank z :
  0 <= z ->
  let r := binary_normalize prec emax z 0 false in
  rank r = Z.min (Rnd (z * 2 ^ 2148)) INF
  /\ is_float r = true
  /\ nonneg r = true.
Proof.
  intros Hz r. pose proof INF_pos.
  destruct z as [|m|m]; [|clear Hz|lia].
  { subst r. simpl. rewrite ?Z.mul_0_l, ?Rnd_0. split; [lia|done]. }
  subst r. unfold binary_normalize, binary_round, shl_align.
  change (Z.pos (digits2_pos m)) with (Zdigits2 (Z.pos m)).
  rewrite Z.add_0_r, Z.sub_0_r, fexp_eq.
  set (d := Zdigits2 (Z.pos m)).
  assert (Hd : 1 <= d) by (unfold d; simpl; lia).
  destruct (Z.max (d - 53) (-1074)) as [|p|p] eqn:HE.
  - apply binary_round_aux_rank; [lia|]. rewrite fexp_eq. fold d. lia.
  - apply binary_round_aux_rank; [lia|]. rewrite fexp_eq. fold d. lia.
  - change (Pos.iter xO m p) with (shift_pos p m).
    assert (Hsh : Z.pos (shift_pos p m) = Z.pos m * 2 ^ Z.pos p).
    { rewrite shift_pos_correct, Z.pow_pos_fold. lia. }
    assert (Hdig : Zdigits2 (Z.pos (shift_pos p m)) = d + Z.pos p).
    { rewrite Hsh. apply Zdigits2_mul_pow2; lia. }
    destruct (binary_round_aux_rank (shift_pos p m) (Z.neg p)) as (Hr & Hv & Hn).
    + lia.
    + rewrite fexp_eq, Hdig. lia.
    + split; [|done]. rewrite Hr, Hsh. f_equal. f_equal.
      rewrite <- Z.mul_assoc, <- pow2_split by lia. f_equal. f_equal. lia.
Qed.

Lemma float_of_int_rank z f :
  0 <= z -> float_of_int z = Ok f ->
  rank f = Rnd (z * 2 ^ 2148)
  /\ rank f < INF /\ is_float f = true /\ nonneg f = true.
Proof.
  intros Hz. unfold float_of_int.
  destruct (binary_normalize_rank z Hz) as (Hr & Hv & Hn).
  destruct (binary_normalize prec emax z 0 false) as [s|s| |s m e] eqn:Hb;
    intros [= <-].
  - simpl in *. pose proof INF_pos. repeat split; lia || done.
  - simpl in Hn. discriminate.
  - assert (rank (S754_finite s m e) < INF).
    { apply rank_lt_INF; done. }
    repeat split; lia || done.
Qed.

(** [int(x)] for a non-negative finite float. *)
Lemma int_of_float_rank x :
  is_float x = true -> nonneg x = true ->
  match x with
  | S754_infinity _ => is_Ok (int_of_float x) = false
  | _ => int_of_float x = Ok (rank x / 2 ^ 1074)
  end.
Proof.
  intros Hv Hn. destruct x as [s|s| |s m e]; simpl in Hn; try done.
  destruct s; [discriminate|]. simpl. f_equal.
  apply valid_finite in Hv as (He & _).
  assert (0 < 2 ^ 1074) by (by apply pow2_pos).
  destruct (Z.le_gt_cases 0 e) as [Hpos|Hneg].
  - rewrite Z.shiftl_mul_pow2 by lia.
    rewrite (pow2_split e 1074), Z.mul_assoc, Z.div_mul by lia. done.
  - rewrite Z.shiftl_div_pow2 by lia.
    assert (Hsplit : 2 ^ 1074 = 2 ^ (- e) * 2 ^ (e + 1074)).
    { rewrite <- (pow2_split (- e) (e + 1074)) by lia. f_equal. lia. }
    rewrite Hsplit.
    assert (2 ^ (- e) <> 0) by (apply Z.pow_nonzero; lia).
    assert (2 ^ (e + 1074) <> 0) by (apply Z.pow_nonzero; lia).
    by rewrite Z.div_mul_cancel_r.
Qed.

(** ** Comparisons and ranks *)

Lemma SFleb_rank x y :
  good x -> good y -> SFleb x y = true -> rank x <= rank y.
Proof.
  intros [Hvx Hnx] [Hvy Hny] Hle. pose proof INF_pos.
  pose proof (rank_nonneg y Hny).
  destruct x as [sx|sx| |sx mx ex]; simpl in Hnx; try discriminate;
    [simpl; lia| |].
  - destruct sx; [discriminate|].
    destruct y as [sy|sy| |sy my ey]; simpl in Hny; try discriminate;
      try destruct sy; try discriminate; simpl; lia.
  - destruct sx; [discriminate|].
    destruct y as [sy|sy| |sy my ey]; simpl in Hny; try discriminate;
      try (destruct sy; discriminate).
    + destruct sy; [discriminate|]. simpl.
      pose proof (finite_rank_lt _ _ _ Hvx). lia.
    + destruct sy; [discriminate|]. simpl.
      unfold SFleb, SFcompare in Hle.
      destruct (valid_finite _ _ _ Hvx) as (Hex & Hdx & _).
      destruct (valid_finite _ _ _ Hvy) as (Hey & _ & Hny').
      destruct (Z.compare_spec ex ey) as [->|Hlt|Hgt]; [| |discriminate].
      * assert (Z.pos mx <= Z.pos my).
        { change (Pos.compare_cont Eq mx my) with (Pos.compare mx my) in Hle.
          destruct (Pos.compare_spec mx my) as [Hc|Hc|Hc];
            [subst; lia | apply Pos2Z.pos_lt_pos in Hc; lia | discriminate]. }
        apply Z.mul_le_mono_nonneg_r; [apply Z.pow_nonneg|]; lia.
      * pose proof (Zdigits2_bounds (Z.pos mx) ltac:(lia)) as [_ Hux].
        pose proof (Zdigits2_bounds (Z.pos my) ltac:(lia)) as [Hly _].
        rewrite (Hny' ltac:(lia)) in Hly. change (53 - 1) with 52 in Hly.
        assert (Hx53 : Z.pos mx < 2 ^ 53).
        { eapply Z.lt_le_trans; [exact Hux|]. apply Z.pow_le_mono_r; lia. }
        assert (Hp : 2 ^ (ey + 1074) = 2 ^ (ey - ex) * 2 ^ (ex + 1074)).
        { rewrite <- pow2_split by lia. f_equal. lia. }
        rewrite Hp.
        assert (2 <= 2 ^ (ey - ex)).
        { change 2 with (2 ^ 1) at 1. apply Z.pow_le_mono_r; lia. }
        assert (0 < 2 ^ (ex + 1074)) by (apply pow2_pos; lia).
        change (2 ^ 53) with (2 * 2 ^ 52) in Hx53.
        assert (0 < 2 ^ 52) by (by apply pow2_pos).
        rewrite Z.mul_assoc.
        apply Z.mul_le_mono_nonneg_r; [lia|]. nia.
Qed.

Lemma SFleb_zero_nonneg f : SFleb (S754_zero false) f = true -> nonneg f = true.
Proof. by destruct f as [s|[]| |[] m e]. Qed.

Lemma float_le_int_rank x z :
  good x -> float_le_int x z = true -> rank x <= z * 2 ^ 1074.
Proof.
  intros [Hv Hn]. assert (0 < 2 ^ 1074) by (by apply pow2_pos).
  destruct x as [s|s| |s m e]; simpl in Hn; try discriminate; simpl.
  - intros Hz%Z.leb_le. lia.
  - destruct s; [discriminate|]. discriminate.
  - destruct s; [discriminate|]. simpl.
    apply valid_finite in Hv as (He & _).
    destruct (Z.leb_spec 0 e) as [Hpos|Hneg]; intros Hle%Z.leb_le.
    + rewrite Z.shiftl_mul_pow2 in Hle by lia.
      rewrite (pow2_split e 1074), Z.mul_assoc by lia.
      apply Z.mul_le_mono_nonneg_r; lia.
    + rewrite Z.shiftl_mul_pow2 in Hle by lia.
      assert (Hsplit : 2 ^ 1074 = 2 ^ (- e) * 2 ^ (e + 1074)).
      { rewrite <- (pow2_split (- e) (e + 1074)) by lia. f_equal. lia. }
      rewrite Hsplit, Z.mul_assoc.
      apply Z.mul_le_mono_nonneg_r; [apply Z.pow_nonneg|]; lia.
Qed.

(** A weight that passed [gt=30, le=150]. *)
Lemma valid_weight r :
  is_float (weight_kg r) = true -> RiderProfile_ok r = true ->
  good (weight_kg r)
  /\ 0 <= rank (weight_kg r) <= 150 * 2 ^ 1074
  /\ (forall s, weight_kg r <> S754_infinity s).
Proof.
  intros Hv [Hlt Hle]%andb_prop.
  assert (Hn : nonneg (weight_kg r) = true).
  { destruct (weight_kg r) as [s|s| |s m e]; simpl in *; try discriminate.
    - by destruct s.
    - destruct s; [|done]. exfalso.
      apply negb_true_iff in Hlt.
      destruct (Z.leb_spec 0 e) as [Hpos|Hneg].
      + apply Z.leb_gt in Hlt. rewrite Z.shiftl_mul_pow2 in Hlt by lia.
        assert (0 < 2 ^ e) by (by apply pow2_pos).
        simpl in Hlt. change (Z.neg m) with (- Z.pos m) in Hlt. nia.
      + apply Z.leb_gt in Hlt. rewrite Z.shiftl_mul_pow2 in Hlt by lia.
        assert (0 < 2 ^ (- e)) by (apply pow2_pos; lia).
        simpl in Hlt. lia. }
  split; [done|]. split.
  - split; [by apply rank_nonneg|]. by apply float_le_int_rank.
  - intros s Heq. rewrite Heq in Hle, Hn. simpl in Hle, Hn. by destruct s.
Qed.

(** ** The psi pipeline on ranks *)

Lemma Rnd_upper v k : 1074 <= k -> 0 <= v < 2 ^ k -> Rnd v <= 2 ^ (k - 1074).
Proof.
  intros Hk Hv. assert (0 < 2 ^ 1074) by (by apply pow2_pos).
  apply (Z.mul_le_mono_pos_r _ _ (2 ^ 1074)); [done|].
  rewrite Rnd_scaled, <- pow2_split by lia.
  replace (k - 1074 + 1074) with k by lia.
  pose proof (Zdigits2_lt_pow2 v k ltac:(lia) ltac:(lia) ltac:(lia)).
  pose proof (Zdigits2_nonneg v ltac:(lia)).
  apply rne_upper; lia.
Qed.

Lemma rank_INF x : good x -> rank x = INF -> x = S754_infinity false.
Proof.
  intros [Hv Hn] Hr. pose proof INF_pos.
  destruct x as [s|s| |s m e]; simpl in Hn; try discriminate;
    destruct s; try discriminate; simpl in Hr; try lia; [done|].
  pose proof (finite_rank_lt _ _ _ Hv). lia.
Qed.

Lemma float_mul_infinity x y :
  good x -> good y -> (rank x = INF \/ rank y = INF) ->
  is_Ok (int_of_float (float_mul x y)) = false.
Proof.
  intros Hx Hy [Hi|Hi].
  - rewrite (rank_INF x Hx Hi). destruct Hy as [_ Hn].
    by destruct y as [sy|sy| |sy my ey].
  - rewrite (rank_INF y Hy Hi). destruct Hx as [_ Hn].
    by destruct x as [sx|sx| |sx mx ex].
Qed.

Lemma rank_le_INF x : good x -> 0 <= rank x <= INF.
Proof.
  intros [Hv Hn]. split; [by apply rank_nonneg|]. pose proof INF_pos.
  destruct x as [s|s| |s m e]; simpl in Hn; try discriminate; simpl; try lia.
  - destruct s; [discriminate|]. simpl. lia.
  - destruct s; [discriminate|]. simpl.
    pose proof (finite_rank_lt _ _ _ Hv). lia.
Qed.

(** A product that [int()] accepts: both factors are finite and the result
    is the rounded product of the ranks, truncated. *)
Lemma mul_int_rank x y b :
  good x -> good y -> int_of_float (float_mul x y) = Ok b ->
  rank x < INF /\ rank y < INF
  /\ 0 <= b /\ b = Rnd (rank x * rank y) / 2 ^ 1074.
Proof.
  intros Hx Hy Hb.
  pose proof (rank_le_INF x Hx) as Hrx. pose proof (rank_le_INF y Hy) as Hry.
  assert (Hfin : rank x < INF /\ rank y < INF).
  { destruct (Z.eq_dec (rank x) INF) as [Hi|Hi];
      [|destruct (Z.eq_dec (rank y) INF) as [Hj|Hj]]; [| |lia].
    - pose proof (float_mul_infinity x y Hx Hy (or_introl Hi)) as Hno.
      rewrite Hb in Hno. discriminate.
    - pose proof (float_mul_infinity x y Hx Hy (or_intror Hj)) as Hno.
      rewrite Hb in Hno. discriminate. }
  destruct Hfin as [Hfx Hfy]. split; [done|]. split; [done|].
  destruct Hx as [Hvx Hnx], Hy as [Hvy Hny].
  destruct (float_mul_rank x y Hvx Hvy Hnx Hny Hfx Hfy) as (Hr & Hv & Hn).
  pose proof (int_of_float_rank _ Hv Hn) as Hint.
  assert (Hnoinf : forall s, float_mul x y <> S754_infinity s).
  { intros s Heq. rewrite Heq in Hint, Hb. simpl in Hint, Hb. discriminate. }
  pose proof (rank_lt_INF _ Hv Hn Hnoinf) as Hlt.
  assert (Hb' : int_of_float (float_mul x y) = Ok (rank (float_mul x y) / 2 ^ 1074)).
  { destruct (float_mul x y) as [s|s| |s m e];
      first [done | by destruct (Hnoinf s)]. }
  rewrite Hb in Hb'. injection Hb' as ->.
  assert (0 < 2 ^ 1074) by (by apply pow2_pos).
  split; [apply Z.div_pos; lia|]. f_equal. lia.
Qed.

Lemma psi_of_rank_mono rg rt rw a b :
  0 <= rg -> 0 <= rt -> 0 <= rw -> 0 <= a <= b ->
  0 <= psi_of_rank rg rt rw a <= psi_of_rank rg rt rw b.
Proof.
  intros Hg Ht Hw Hab. unfold psi_of_rank.
  assert (Hp : 0 < 2 ^ 1074) by (by apply pow2_pos).
  assert (Hq : 0 < 2 ^ 2148) by (by apply pow2_pos).
  assert (H1 : 0 <= Rnd (a * rg) <= Rnd (b * rg)).
  { split; [apply Rnd_nonneg; nia|]. apply Rnd_mono. nia. }
  assert (H2 : 0 <= Rnd (a * rg) / 2 ^ 1074 <= Rnd (b * rg) / 2 ^ 1074).
  { split; [apply Z.div_pos; lia|]. apply Z.div_le_mono; lia. }
  set (sa := Rnd (a * rg) / 2 ^ 1074) in *.
  set (sb := Rnd (b * rg) / 2 ^ 1074) in *.
  assert (H3 : 0 <= Rnd (sa * 2 ^ 2148) <= Rnd (sb * 2 ^ 2148)).
  { split; [apply Rnd_nonneg; nia|]. apply Rnd_mono. nia. }
  set (fa := Rnd (sa * 2 ^ 2148)) in *. set (fb := Rnd (sb * 2 ^ 2148)) in *.
  assert (H4 : 0 <= Rnd (fa * rt) <= Rnd (fb * rt)).
  { split; [apply Rnd_nonneg; nia|]. apply Rnd_mono. nia. }
  set (ya := Rnd (fa * rt)) in *. set (yb := Rnd (fb * rt)) in *.
  assert (H5 : 0 <= Rnd (ya * rw) <= Rnd (yb * rw)).
  { split; [apply Rnd_nonneg; nia|]. apply Rnd_mono. nia. }
  split; [apply Z.div_pos; lia|]. apply Z.div_le_mono; lia.
Qed.

Lemma psi_pct_good_terrain t :
  good (psi_pct_of (terrain_modifier t))
  /\ rank (psi_pct_of (terrain_modifier t)) < 2 ^ (1 + 1074).
Proof. destruct t; vm_compute; repeat split; congruence. Qed.

Lemma psi_pct_good_weather w :
  good (psi_pct_of (weather_modifier w))
  /\ rank (psi_pct_of (weather_modifier w)) < 2 ^ (1 + 1074).
Proof. destruct w; vm_compute; repeat split; congruence. Qed.

Lemma below_two_finite x : rank x < 2 ^ (1 + 1074) -> rank x < INF.
Proof.
  intros Hx. eapply Z.lt_le_trans; [exact Hx|].
  unfold INF. apply Z.pow_le_mono_r; lia.
Qed.

(** The multiplier as a float, when the first product is accepted. *)
Lemma multiplier_float w m x :
  num_ok m = true -> num_nonneg m = true ->
  Py.mul (NFloat w) m = Ok x ->
  exists g, x = NFloat (float_mul w g) /\ good g /\ rank g = num_rank m.
Proof.
  intros Hok Hnn Hmul. destruct m as [z|g]; simpl in *.
  - apply Z.leb_le in Hnn.
    apply bind_Ok in Hmul as (g & Hg & [= <-]).
    destruct (float_of_int_rank z g Hnn Hg) as (Hr & _ & Hv & Hn).
    exists g. by repeat split.
  - injection Hmul as <-. exists g. repeat split; [done|].
    by apply SFleb_zero_nonneg.
Qed.

Lemma compute_psi_rank w t_mod w_mod d p :
  good w ->
  good (psi_pct_of t_mod) -> rank (psi_pct_of t_mod) < INF ->
  good (psi_pct_of w_mod) ->
  num_ok (default (NFloat f_1_0) (psi_multiplier d)) = true ->
  num_nonneg (default (NFloat f_1_0) (psi_multiplier d)) = true ->
  compute_psi w t_mod w_mod d = Ok p ->
  p = psi_of_rank (num_rank (default (NFloat f_1_0) (psi_multiplier d)))
        (rank (psi_pct_of t_mod)) (rank (psi_pct_of w_mod)) (rank w)
  /\ 0 <= num_rank (default (NFloat f_1_0) (psi_multiplier d)).
Proof.
  intros Hw Ht Htf Hwp Hok Hnn. unfold compute_psi. fold (psi_pct_of t_mod).
  fold (psi_pct_of w_mod).
  set (m := default (NFloat f_1_0) (psi_multiplier d)) in *.
  set (tp := psi_pct_of t_mod) in *. set (wp := psi_pct_of w_mod) in *.
  intros Hc.
  apply bind_Ok in Hc as (x & Hx & Hc).
  apply bind_Ok in Hc as (b & Hb & Hc).
  apply bind_Ok in Hc as (y & Hy & Hc).
  apply bind_Ok in Hc as (z & Hz & Hc).
  destruct (multiplier_float w m x Hok Hnn Hx) as (g & -> & Hg & Hrg).
  simpl in Hb.
  destruct (mul_int_rank w g b Hw Hg Hb) as (_ & _ & Hb0 & ->).
  simpl in Hy. apply bind_Ok in Hy as (f & Hf & [= <-]).
  destruct (float_of_int_rank _ f Hb0 Hf) as (Hrf & Hff & Hvf & Hnf).
  simpl in Hz. injection Hz as <-. simpl in Hc.
  destruct Ht as [Hvt Hnt].
  destruct (float_mul_rank f tp Hvf Hvt Hnf Hnt Hff Htf) as (Hry & Hvy & Hny).
  destruct (mul_int_rank (float_mul f tp) wp p (conj Hvy Hny) Hwp Hc)
    as (Hyfin & _ & _ & ->).
  split.
  - unfold psi_of_rank. rewrite <- Hrg, <- Hrf.
    by replace (Rnd (rank f * rank tp)) with (rank (float_mul f tp)) by lia.
  - rewrite <- Hrg. by apply rank_nonneg, Hg.
Qed.

(** ** Psi against the rider's weight (C5) *)

Lemma psi_at_compute specs setup name comp p :
  present_component setup name = Some comp ->
  psi_at specs setup name = Some p ->
  compute_psi (weight_kg (rider setup))
    (terrain_modifier (terrain (conditions setup)))
    (weather_modifier (weather (conditions setup)))
    (resolve_brand_data specs comp name) = Ok p.
Proof.
  intros Hpres. unfold psi_at.
  destruct (calculate_baseline specs setup) as [recs|] eqn:Hcalc; [|done].
  destruct (calculate_baseline_entry _ _ _ _ _ Hcalc Hpres) as (r & Hr & Hset).
  rewrite Hr. intros [= <-].
  by apply get_component_settings_Ok in Hset as [Hpsi _].
Qed.

(** C5, as the code has it: with the brand, the terrain, the weather and
    the reference data fixed, and a psi_multiplier that is not negative,
    the psi emitted for a component is at least 0 and does not decrease
    when the rider's weight grows. *)
Theorem psi_monotone_in_weight specs setup name comp w1 w2 p1 p2 :
  present_component setup name = Some comp ->
  is_float w1 = true -> is_float w2 = true ->
  RiderProfile_ok (rider (with_weight setup w1)) = true ->
  RiderProfile_ok (rider (with_weight setup w2)) = true ->
  SFleb w1 w2 = true ->
  num_ok (multiplier_of specs comp name) = true ->
  num_nonneg (multiplier_of specs comp name) = true ->
  psi_at specs (with_weight setup w1) name = Some p1 ->
  psi_at specs (with_weight setup w2) name = Some p2 ->
  0 <= p1 /\ p1 <= p2.
Proof.
  intros Hpres Hf1 Hf2 Hok1 Hok2 Hle Hmok Hmnn Hp1 Hp2.
  destruct (valid_weight (rider (with_weight setup w1)) Hf1 Hok1)
    as (Hg1 & Hr1 & _).
  destruct (valid_weight (rider (with_weight setup w2)) Hf2 Hok2)
    as (Hg2 & Hr2 & _).
  simpl in Hg1, Hg2, Hr1, Hr2.
  apply (psi_at_compute _ _ _ comp) in Hp1; [|done].
  apply (psi_at_compute _ _ _ comp) in Hp2; [|done].
  simpl in Hp1, Hp2.
  destruct (psi_pct_good_terrain (terrain (conditions setup))) as [Ht Htb].
  destruct (psi_pct_good_weather (weather (conditions setup))) as [Hw _].
  apply below_two_finite in Htb.
  destruct (compute_psi_rank _ _ _ _ _ Hg1 Ht Htb Hw Hmok Hmnn Hp1) as [-> Hm].
  destruct (compute_psi_rank _ _ _ _ _ Hg2 Ht Htb Hw Hmok Hmnn Hp2) as [-> _].
  apply psi_of_rank_mono; try (by apply rank_nonneg; tauto); try done.
  - by apply rank_nonneg, Ht.
  - by apply rank_nonneg, Hw.
  - split; [lia|]. by apply SFleb_rank.
Qed.

Lemma psi_monotone_in_weight_witness :
  present_component Sample.setup0 "fork" = Some Sample.fork0
  /\ SFleb Sample.w75 Sample.w90 = true
  /\ psi_at Sample.specs0 (with_weight Sample.setup0 Sample.w75) "fork" = Some 78
  /\ psi_at Sample.specs0 (with_weight Sample.setup0 Sample.w90) "fork" = Some 94
  /\ 0 <= 78 /\ 78 <= 94.
Proof.
  split; [reflexivity|]. split; [reflexivity|].
  split; [reflexivity|]. split; [reflexivity|].
  apply (psi_monotone_in_weight Sample.specs0 Sample.setup0 "fork" Sample.fork0
           Sample.w75 Sample.w90 78 94); reflexivity.
Defined.

(** A store whose psi_multiplier is -1.0: the psi is negative, and the
    heavier rider gets the lower psi. *)
Lemma negative_multiplier_counterexample :
  RiderProfile_ok (rider (with_weight Sample.setup_hardtail Sample.w75)) = true
  /\ RiderProfile_ok (rider (with_weight Sample.setup_hardtail Sample.w90)) = true
  /\ SFleb Sample.w75 Sample.w90 = true
  /\ psi_at Stores.inverted (with_weight Sample.setup_hardtail Sample.w75) "fork"
     = Some (-75)
  /\ psi_at Stores.inverted (with_weight Sample.setup_hardtail Sample.w90) "fork"
     = Some (-90).
Proof. repeat split. Qed.

(** ** Products that stay small do not raise *)

Lemma pow2_lt_INF a : 0 <= a <= 1000 -> 2 ^ (a + 1074) < INF.
Proof. intros Ha. unfold INF. apply Z.pow_lt_mono_r; lia. Qed.

Lemma float_mul_small x y a b :
  good x -> good y -> 0 <= a -> 0 <= b -> a + b <= 999 ->
  rank x < 2 ^ (a + 1074) -> rank y < 2 ^ (b + 1074) ->
  good (float_mul x y) /\ rank (float_mul x y) < 2 ^ (a + b + 1 + 1074).
Proof.
  intros [Hvx Hnx] [Hvy Hny] Ha Hb Hab Hx Hy.
  pose proof (pow2_lt_INF a ltac:(lia)). pose proof (pow2_lt_INF b ltac:(lia)).
  pose proof (pow2_lt_INF (a + b) ltac:(lia)).
  destruct (float_mul_rank x y Hvx Hvy Hnx Hny ltac:(lia) ltac:(lia))
    as (Hr & Hv & Hn).
  split; [done|].
  pose proof (rank_nonneg x Hnx). pose proof (rank_nonneg y Hny).
  assert (Hprod : rank x * rank y < 2 ^ (a + b + 2148)).
  { replace (a + b + 2148) with ((a + 1074) + (b + 1074)) by lia.
    rewrite pow2_split by lia.
    assert (0 < 2 ^ (a + 1074)) by (apply pow2_pos; lia).
    assert (0 < 2 ^ (b + 1074)) by (apply pow2_pos; lia).
    apply Z.mul_lt_mono_nonneg; lia. }
  pose proof (Rnd_upper (rank x * rank y) (a + b + 2148) ltac:(lia)
                ltac:(split; [apply Z.mul_nonneg_nonneg|]; lia)) as Hup.
  replace (a + b + 2148 - 1074) with (a + b + 1074) in Hup by lia.
  assert (2 ^ (a + b + 1074) < 2 ^ (a + b + 1 + 1074))
    by (apply Z.pow_lt_mono_r; lia).
  lia.
Qed.

Lemma int_small x a :
  good x -> 0 <= a <= 1000 -> rank x < 2 ^ (a + 1074) ->
  exists b, int_of_float x = Ok b /\ 0 <= b < 2 ^ a.
Proof.
  intros [Hv Hn] Ha Hx. pose proof (pow2_lt_INF a Ha) as Hlt.
  pose proof (rank_nonneg x Hn). pose proof (int_of_float_rank x Hv Hn) as Hint.
  assert (Hp : 0 < 2 ^ 1074) by (by apply pow2_pos).
  exists (rank x / 2 ^ 1074). split.
  - destruct x as [s|s| |s m e]; try done.
    simpl in Hn, Hx. destruct s; [discriminate|]. simpl in Hx. lia.
  - split; [apply Z.div_pos; lia|].
    apply Z.div_lt_upper_bound; [done|].
    rewrite <- pow2_split by lia. by rewrite Z.add_comm.
Qed.

Lemma float_of_int_small z a :
  0 <= a <= 999 -> 0 <= z < 2 ^ a ->
  exists f, float_of_int z = Ok f /\ good f /\ rank f < 2 ^ (a + 1 + 1074).
Proof.
  intros Ha Hz. pose proof (pow2_lt_INF a ltac:(lia)) as Hlt.
  destruct (binary_normalize_rank z ltac:(lia)) as (Hr & Hv & Hn).
  assert (Hq : 0 < 2 ^ 2148) by (by apply pow2_pos).
  assert (Hprod : z * 2 ^ 2148 < 2 ^ (a + 2148)).
  { rewrite pow2_split by lia. apply Z.mul_lt_mono_pos_r; lia. }
  pose proof (Rnd_upper (z * 2 ^ 2148) (a + 2148) ltac:(lia) ltac:(lia)) as Hup.
  replace (a + 2148 - 1074) with (a + 1074) in Hup by lia.
  assert (2 ^ (a + 1074) < 2 ^ (a + 1 + 1074)) by (apply Z.pow_lt_mono_r; lia).
  exists (binary_normalize prec emax z 0 false). unfold float_of_int.
  split; [|split; [done|lia]].
  destruct (binary_normalize prec emax z 0 false) as [s|s| |s m e]; try done.
  simpl in Hn, Hr. destruct s; [discriminate|]. simpl in Hr. lia.
Qed.

(** With the built-in multiplier 1.0 the psi is always produced. *)
Lemma compute_psi_defaults r t w :
  is_float (weight_kg r) = true -> RiderProfile_ok r = true ->
  exists p, compute_psi (weight_kg r) (terrain_modifier t) (weather_modifier w)
              no_brand_data = Ok p.
Proof.
  intros Hf Hok. destruct (valid_weight r Hf Hok) as (Hg & [_ Hr] & _).
  destruct (psi_pct_good_terrain t) as [Ht Htb].
  destruct (psi_pct_good_weather w) as [Hw Hwb].
  unfold compute_psi. fold (psi_pct_of (terrain_modifier t)).
  fold (psi_pct_of (weather_modifier w)). simpl default at 1.
  assert (H150 : 150 * 2 ^ 1074 < 2 ^ (8 + 1074)).
  { rewrite (pow2_split 8 1074) by lia.
    apply Z.mul_lt_mono_pos_r; [by apply pow2_pos|done]. }
  assert (Hone : good f_1_0 /\ rank f_1_0 < 2 ^ (1 + 1074))
    by (vm_compute; repeat split; congruence).
  destruct Hone as [Hg1 Hr1].
  destruct (float_mul_small (weight_kg r) f_1_0 8 1 Hg Hg1) as [Hgx Hrx];
    try lia.
  destruct (int_small _ 10 Hgx ltac:(lia) Hrx) as (b & Hb & Hb10).
  destruct (float_of_int_small b 10 ltac:(lia) Hb10) as (f & Hfb & Hgf & Hrf).
  destruct (float_mul_small f (psi_pct_of (terrain_modifier t)) 11 1 Hgf Ht)
    as [Hgy Hry]; try lia.
  destruct (float_mul_small _ (psi_pct_of (weather_modifier w)) 13 1 Hgy Hw)
    as [Hgz Hrz]; try lia.
  destruct (int_small _ 15 Hgz ltac:(lia) Hrz) as (p & Hp & _).
  exists p. simpl Py.mul at 1. simpl. rewrite Hb. simpl. rewrite Hfb. simpl.
  exact Hp.
Qed.

(** ** Built-in defaults (C9) *)

(** The sign of a product plays no part in its rounding. *)
Lemma SFabs_round s m e l :
  SFabs (binary_round_aux prec emax s m e l)
  = binary_round_aux prec emax false m e l.
Proof.
  unfold binary_round_aux.
  destruct (shr_fexp prec emax m e l) as [mrs e'].
  destruct (shr_fexp prec emax
              (round_nearest_even (shr_m mrs) (loc_of_shr_record mrs)) e'
              loc_Exact) as [mrs' e''].
  destruct (shr_m mrs') as [|p|p]; try reflexivity.
  by destruct (e'' <=? emax - prec).
Qed.

Lemma SFabs_mul x y : SFabs (float_mul x y) = float_mul (SFabs x) (SFabs y).
Proof.
  destruct x as [sx|sx| |sx mx ex], y as [sy|sy| |sy my ey]; try reflexivity.
  apply SFabs_round.
Qed.

Lemma int_of_float_abs x b :
  int_of_float (SFabs x) = Ok b -> exists b', int_of_float x = Ok b'.
Proof. destruct x; simpl; intros H; try discriminate H; eauto. Qed.

Lemma good_abs x :
  is_float x = true -> x <> S754_nan ->
  good (SFabs x).
Proof. intros Hv Hn. by destruct x. Qed.

Lemma good_abs_rank x : good x -> good (SFabs x) /\ rank (SFabs x) = rank x.
Proof.
  intros [Hv Hn]. destruct x as [s|s| |s m e]; try done;
    simpl in Hn; by destruct s.
Qed.

Lemma sag_defaults travel s :
  35 < travel <= 250 -> sag_in_range s = true ->
  exists a b,
    Py.mul (NInt travel) s ≫= Py.int = Ok a
    /\ Py.mul s (NInt 100) ≫= Py.int = Ok b.
Proof.
  intros Htravel Hs. destruct s as [z|f]; simpl in Hs.
  { by exists (travel * z), (z * 100). }
  apply andb_prop in Hs as [Hv Hle].
  assert (Hnan : f <> S754_nan) by (intros ->; discriminate Hle).
  pose proof (good_abs f Hv Hnan) as Hg.
  assert (Hbound : good sag_bound /\ rank sag_bound < 2 ^ (901 + 1074))
    by (vm_compute; repeat split; congruence).
  destruct Hbound as [Hgb Hrb].
  pose proof (SFleb_rank _ _ Hg Hgb Hle) as Hrank.
  assert (Hrf : rank (SFabs f) < 2 ^ (901 + 1074)) by lia.
  destruct (float_of_int_small travel 8 ltac:(lia) ltac:(simpl; lia))
    as (g & Hgt & Hgg & Hrg).
  destruct (good_abs_rank g Hgg) as [Hgg' Hrg'].
  destruct (float_mul_small (SFabs g) (SFabs f) 9 901 Hgg' Hg) as [Hgx Hrx];
    try lia.
  destruct (int_small _ 911 Hgx ltac:(lia) Hrx) as (a & Ha & _).
  rewrite <- SFabs_mul in Ha. apply int_of_float_abs in Ha as (a' & Ha).
  destruct (float_of_int_small 100 7 ltac:(lia) ltac:(simpl; lia))
    as (h & Hh & Hgh & Hrh).
  destruct (good_abs_rank h Hgh) as [Hgh' Hrh'].
  destruct (float_mul_small (SFabs f) (SFabs h) 901 8 Hg Hgh') as [Hgy Hry];
    try lia.
  destruct (int_small _ 910 Hgy ltac:(lia) Hry) as (b & Hb & _).
  rewrite <- SFabs_mul in Hb. apply int_of_float_abs in Hb as (b' & Hb).
  exists a', b'. cbn -[float_of_int float_mul int_of_float].
  rewrite Hgt, Hh. cbn -[float_of_int float_mul int_of_float].
  by rewrite Ha, Hb.
Qed.

Lemma resolve_unknown_brand specs comp name :
  brand_unknown specs comp name ->
  resolve_brand_data specs comp name = no_brand_data.
Proof. intros [Hb Hf]. unfold resolve_brand_data. by rewrite Hb, Hf. Qed.

Lemma present_component_ok setup name comp :
  BikeSetup_ok setup = true ->
  present_component setup name = Some comp ->
  SuspensionComponent_ok comp = true.
Proof.
  unfold BikeSetup_ok. intros [[_ Hf]%andb_prop Hs]%andb_prop Hpres.
  apply present_component_cases in Hpres as [[_ ->] | [_ Hshock]]; [done|].
  rewrite Hshock in Hs. by apply andb_prop in Hs as [Hs _].
Qed.

(** The settings of a component that only the defaults describe. *)
Lemma settings_from_defaults specs setup name comp :
  BikeSetup_ok setup = true ->
  is_float (weight_kg (rider setup)) = true ->
  present_component setup name = Some comp ->
  brand_unknown specs comp name ->
  sag_in_range (lookup_sag_pct specs (bike_type (rider setup)) name) = true ->
  exists r,
    settings_of specs setup comp name = Ok r
    /\ compute_psi (weight_kg (rider setup))
         (terrain_modifier (terrain (conditions setup)))
         (weather_modifier (weather (conditions setup))) no_brand_data
       = Ok (psi r)
    /\ clicks r
       = build_clicks (weight_kg (rider setup))
           (terrain_modifier (terrain (conditions setup)))
           (weather_modifier (weather (conditions setup))) comp no_brand_data.
Proof.
  intros Hok Hf Hpres Hunk Hsag.
  pose proof (present_component_ok _ _ _ Hok Hpres) as Hcomp.
  assert (Hrider : RiderProfile_ok (rider setup) = true).
  { unfold BikeSetup_ok in Hok.
    by apply andb_prop in Hok as [[Hr _]%andb_prop _]. }
  destruct (compute_psi_defaults (rider setup) (terrain (conditions setup))
              (weather (conditions setup)) Hf Hrider) as (p & Hp).
  unfold SuspensionComponent_ok in Hcomp.
  apply andb_prop in Hcomp as [H35%Z.ltb_lt H250%Z.leb_le].
  destruct (sag_defaults (travel_mm comp) _ (conj H35 H250) Hsag)
    as (a & b & Ha & Hb).
  apply bind_Ok in Ha as (sa & Hsa & Ha). apply bind_Ok in Hb as (sb & Hsb & Hb).
  unfold settings_of, get_component_settings.
  rewrite (resolve_unknown_brand _ _ _ Hunk), Hp. cbn [mbind result_bind].
  rewrite Hsa. cbn [mbind result_bind]. rewrite Ha. cbn [mbind result_bind].
  rewrite Hsb. cbn [mbind result_bind]. rewrite Hb. cbn [mbind result_bind].
  eexists. split; [reflexivity|]. by simpl.
Qed.

Lemma calculate_baseline_total specs setup :
  (forall name comp,
      present_component setup name = Some comp ->
      exists r, settings_of specs setup comp name = Ok r) ->
  exists recs, calculate_baseline specs setup = Ok recs.
Proof.
  intros Hall. unfold calculate_baseline.
  destruct (Hall "fork" (fork setup) eq_refl) as (rf & Hrf).
  unfold settings_of in Hrf. rewrite Hrf. cbn [mbind result_bind].
  destruct (shock setup) as [sh|] eqn:Hsh; [|eauto].
  destruct (Hall "shock" sh) as (rs & Hrs).
  { unfold present_component. simpl. exact Hsh. }
  unfold settings_of in Hrs. rewrite Hrs. cbn [mbind result_bind]. eauto.
Qed.

Lemma no_specs_unknown setup name comp :
  brand_unknown no_specs comp name
  /\ sag_in_range (lookup_sag_pct no_specs (bike_type (rider setup)) name) = true.
Proof.
  split; [|reflexivity].
  unfold brand_unknown, specs_section. simpl.
  by repeat match goal with |- context [if ?b then _ else _] => destruct b end.
Qed.




(** * Further properties of the code *)

(** ** The diagnostic resolver *)

Section DiagnosticMore.

Variable base_attr : string -> option bool.

Lemma find_problem_None db symptom :
  find_problem db symptom = None
  <-> Forall (fun item => symptom_id item <> symptom) db.
Proof.
  unfold find_problem. induction db as [|item db IH]; simpl.
  - split; [constructor | done].
  - destruct (String.eqb_spec (symptom_id item) symptom) as [Heq|Hne].
    + split; [done|]. intros H. inversion H; subst. done.
    + rewrite IH. split; [by constructor | by inversion 1].
Qed.

Lemma find_problem_first pre problem post symptom :
  Forall (fun item => symptom_id item <> symptom) pre ->
  symptom_id problem = symptom ->
  find_problem (pre ++ problem :: post)%list symptom = Some problem.
Proof.
  unfold find_problem. intros Hpre Hid.
  induction Hpre as [|item pre Hne _ IH]; simpl.
  - destruct (String.eqb_spec (symptom_id problem) symptom); done.
  - destruct (String.eqb_spec (symptom_id item) symptom); done.
Qed.

Lemma find_problem_id db symptom problem :
  find_problem db symptom = Some problem ->
  In problem db /\ symptom_id problem = symptom.
Proof.
  unfold find_problem. intros H. apply List.find_some in H as [Hin Heq].
  split; [done|]. by apply String.eqb_eq.
Qed.

(** The outcome for an id that no record carries, which is every id when
    the rule file could not be loaded. *)
Theorem unknown_symptom_reported db setup symptom :
  diagnose_problem base_attr db setup symptom = not_found
  <-> Forall (fun item => symptom_id item <> symptom) db.
Proof.
  rewrite <- find_problem_None. unfold diagnose_problem, not_found.
  destruct (find_problem db symptom) as [problem|]; [|done].
  split; [|done].
  destruct (actual_comp setup problem) as [comp|]; [|discriminate].
  destruct (sort_by_priority _); discriminate.
Qed.

(** With several records of one id the first one decides. *)
Theorem first_record_decides pre problem post setup symptom :
  Forall (fun item => symptom_id item <> symptom) pre ->
  symptom_id problem = symptom ->
  diagnose_problem base_attr (pre ++ problem :: post)%list setup symptom
  = diagnose_problem base_attr [problem] setup symptom.
Proof.
  intros Hpre Hid. unfold diagnose_problem.
  rewrite (find_problem_first pre problem post symptom Hpre Hid).
  pose proof (find_problem_first [] problem [] symptom ltac:(constructor) Hid)
    as Hone.
  change ([] ++ [problem])%list with [problem] in Hone. by rewrite Hone.
Qed.

Lemma sort_by_priority_nil l : sort_by_priority l = [] -> l = [].
Proof.
  intros H. pose proof (sort_by_priority_perm l) as Hp. rewrite H in Hp.
  by apply Permutation_nil in Hp.
Qed.

(** "No solution" is reported exactly when none of the solutions applies. *)
Theorem no_solution_iff db setup symptom problem comp :
  find_problem db symptom = Some problem ->
  actual_comp setup problem = Some comp ->
  diagnose_problem base_attr db setup symptom = no_solution
  <-> Forall (fun s => solution_applies base_attr comp s = false)
        (solutions problem).
Proof.
  intros Hfind Hcomp.
  rewrite (diagnose_problem_found base_attr db _ _ _ _ Hfind Hcomp).
  unfold report, no_solution.
  set (l := List.filter (solution_applies base_attr comp) (solutions problem)).
  assert (Hl : l = [] <-> Forall (fun s => solution_applies base_attr comp s = false)
                            (solutions problem)).
  { subst l. induction (solutions problem) as [|s ss IH]; simpl.
    - split; [constructor|done].
    - destruct (solution_applies base_attr comp s) eqn:Hs.
      + split; [done|]. intros H. inversion H; subst. congruence.
      + rewrite IH. split; [by constructor | by inversion 1]. }
  rewrite <- Hl. split.
  - destruct (sort_by_priority l) eqn:Hs; [|discriminate].
    intros _. by apply sort_by_priority_nil.
  - by intros ->.
Qed.

(** A reported fix is sound: it comes from the first record of that id,
    the component it is about is on the bike, both fixes are solutions of
    the record that apply, no applying solution has a lower priority
    number than the primary fix, and the secondary fix is absent only when
    a single solution applies. *)
Theorem reported_fix_is_best db setup symptom name primary secondary :
  diagnose_problem base_attr db setup symptom = DiagFix name primary secondary ->
  exists problem comp,
    find_problem db symptom = Some problem
    /\ actual_comp setup problem = Some comp
    /\ name = symptom_name problem
    /\ In primary (solutions problem)
    /\ solution_applies base_attr comp primary = true
    /\ (forall s, In s (solutions problem) ->
                  solution_applies base_attr comp s = true ->
                  priority primary <= priority s)
    /\ match secondary with
       | Some s2 =>
           In s2 (solutions problem)
           /\ solution_applies base_attr comp s2 = true
           /\ priority primary <= priority s2
       | None =>
           List.filter (solution_applies base_attr comp) (solutions problem)
           = [primary]
       end.
Proof.
  unfold diagnose_problem.
  destruct (find_problem db symptom) as [problem|] eqn:Hfind; [|discriminate].
  destruct (actual_comp setup problem) as [comp|] eqn:Hcomp; [|discriminate].
  set (l := List.filter (solution_applies base_attr comp) (solutions problem)).
  pose proof (sort_by_priority_perm l) as Hperm.
  pose proof (sort_by_priority_sorted l) as Hsorted.
  destruct (sort_by_priority l) as [|s0 rest] eqn:Hsort; [discriminate|].
  intros [= <- <- <-]. exists problem, comp.
  assert (Hin : forall s, In s (s0 :: rest) <->
                          In s (solutions problem)
                          /\ solution_applies base_attr comp s = true).
  { intros s. rewrite <- List.filter_In. fold l.
    split; apply Permutation_in; [done | by symmetry]. }
  inversion Hsorted as [|? ? Hrest Hall]; subst.
  rewrite Forall_forall in Hall.
  repeat split; try done.
  - apply (Hin s0). by left.
  - apply (Hin s0). by left.
  - intros s Hs Happ. destruct (proj2 (Hin s) (conj Hs Happ)) as [<-|Hr]; [lia|].
    apply Hall. by apply list_elem_of_In.
  - destruct rest as [|s1 rest']; simpl.
    + apply Permutation_length_1_inv in Hperm. done.
    + assert (H1 : In s1 (s0 :: s1 :: rest')) by (right; by left).
      apply Hin in H1 as [H1 H2]. repeat split; [done..|].
      apply Hall. apply list_elem_of_In. by left.
Qed.

End DiagnosticMore.

Lemma unknown_symptom_reported_witness :
  diagnose_problem Sample.no_base_attr Sample.logic_db0 Sample.setup0 "creak"
  = not_found.
Proof.
  apply (unknown_symptom_reported Sample.no_base_attr Sample.logic_db0
           Sample.setup0 "creak").
  repeat constructor; discriminate.
Defined.

Lemma first_record_decides_witness :
  diagnose_problem Sample.no_base_attr
    [Sample.wallow; Sample.harsh; Sample.bottom_out; More.harsh_again]
    Sample.setup0 "fork_harsh"
  = diagnose_problem Sample.no_base_attr [Sample.harsh] Sample.setup0 "fork_harsh".
Proof.
  apply (first_record_decides Sample.no_base_attr [Sample.wallow] Sample.harsh);
    [repeat constructor; discriminate | reflexivity].
Defined.

Lemma no_solution_iff_witness :
  find_problem [More.dive] "fork_dive" = Some More.dive
  /\ actual_comp Sample.setup0 More.dive = Some Sample.fork0
  /\ diagnose_problem Sample.no_base_attr [More.dive] Sample.setup0 "fork_dive"
     = no_solution.
Proof.
  split; [reflexivity|]. split; [reflexivity|].
  apply (no_solution_iff Sample.no_base_attr [More.dive] Sample.setup0
           "fork_dive" More.dive Sample.fork0 eq_refl eq_refl).
  by repeat constructor.
Defined.

Lemma reported_fix_is_best_witness :
  exists problem comp,
    find_problem Sample.logic_db0 "shock_wallow" = Some problem
    /\ actual_comp Sample.setup0 problem = Some comp
    /\ In Sample.by_hsc (solutions problem)
    /\ solution_applies Sample.no_base_attr comp Sample.by_hsc = true.
Proof.
  destruct (reported_fix_is_best Sample.no_base_attr Sample.logic_db0
              Sample.setup0 "shock_wallow" "Shock wallows" Sample.by_hsc
              (Some Sample.by_rebound) eq_refl)
    as (problem & comp & Hf & Hc & _ & Hin & Happ & _).
  by exists problem, comp.
Defined.

(** ** Construction of a setup *)

(** Construction succeeds exactly on valid input and then returns the
    input unchanged: the rider's weight lies in (30, 150], the travel of
    the fork and of a given shock in (35, 250], and a hardtail has no
    shock; nothing is coerced, dropped or filled in except the absent
    shock. *)
Theorem construction_accepts_exactly r c f s b :
  BikeSetup_new r c f s = Ok b
  <-> b = {| rider := r; conditions := c; fork := f; shock := shock_of s |}
      /\ RiderProfile_ok r = true
      /\ SuspensionComponent_ok f = true
      /\ match shock_of s with
         | Some sc =>
             SuspensionComponent_ok sc = true /\ bike_type r <> hardtail
         | None => True
         end.
Proof.
  unfold BikeSetup_new, validate_shock. split.
  - destruct (RiderProfile_ok r) eqn:Hr, (SuspensionComponent_ok f) eqn:Hf;
      destruct s as [| |sc]; try destruct (SuspensionComponent_ok sc) eqn:Hsc;
      destruct (bike_type r) eqn:Hb; simpl; intros H; try discriminate H;
      injection H as <-; repeat split; try done; rewrite ?Hb; discriminate.
  - intros (-> & -> & -> & Hs).
    destruct s as [| |sc]; simpl in Hs; simpl.
    + done.
    + by destruct (bike_type r).
    + destruct Hs as [-> Hb]. by destruct (bike_type r).
Qed.

Lemma construction_accepts_exactly_witness :
  BikeSetup_new Sample.rider0 (conditions Sample.setup0) Sample.fork0
    (ShockGiven Sample.shock0) = Ok Sample.setup0.
Proof.
  apply (construction_accepts_exactly Sample.rider0 (conditions Sample.setup0)
           Sample.fork0 (ShockGiven Sample.shock0) Sample.setup0).
  repeat split; discriminate.
Defined.

(** ** The shape of the calculator's answer *)

Lemma calculate_baseline_cases specs setup recs :
  calculate_baseline specs setup = Ok recs ->
  exists rf,
    settings_of specs setup (fork setup) "fork" = Ok rf
    /\ match shock setup with
       | None => recs = {[ "fork" := rf ]}
       | Some sh =>
           exists rs, settings_of specs setup sh "shock" = Ok rs
                      /\ recs = <["shock" := rs]> {[ "fork" := rf ]}
       end.
Proof.
  unfold calculate_baseline, settings_of. intros Hcalc.
  apply bind_Ok in Hcalc as (rf & Hf & Hrest). exists rf. split; [done|].
  destruct (shock setup) as [sh|].
  - apply bind_Ok in Hrest as (rs & Hs & [= <-]). exists rs. by split.
  - by injection Hrest as <-.
Qed.

(** The answer has an entry for the fork, one for the shock exactly when
    the setup has a shock, and no other entry. *)
Theorem recommendation_keys specs setup recs :
  calculate_baseline specs setup = Ok recs ->
  forall name,
    is_Some (recs !! name) <-> is_Some (present_component setup name).
Proof.
  intros Hcalc name.
  apply calculate_baseline_cases in Hcalc as (rf & _ & Hrecs).
  unfold present_component.
  destruct (String.eqb_spec name "fork") as [->|Hnf].
  - destruct (shock setup) as [sh|].
    + destruct Hrecs as (rs & _ & ->).
      rewrite lookup_insert_ne by done. rewrite lookup_singleton_eq.
      split; eauto.
    + rewrite Hrecs, lookup_singleton_eq. split; eauto.
  - destruct (String.eqb_spec name "shock") as [->|Hns].
    + destruct (shock setup) as [sh|].
      * destruct Hrecs as (rs & _ & ->). rewrite lookup_insert_eq.
        split; eauto.
      * rewrite Hrecs, lookup_singleton_ne by done.
        split; intros [? ?]; discriminate.
    + destruct (shock setup) as [sh|].
      * destruct Hrecs as (rs & _ & ->).
        rewrite lookup_insert_ne, lookup_singleton_ne by done.
        split; intros [? ?]; discriminate.
      * rewrite Hrecs, lookup_singleton_ne by done.
        split; intros [? ?]; discriminate.
Qed.

Lemma recommendation_keys_witness :
  calculate_baseline Sample.specs0 Sample.setup0 = Ok Sample.recs0
  /\ (is_Some (Sample.recs0 !! "shock")
      <-> is_Some (present_component Sample.setup0 "shock")).
Proof.
  split; [reflexivity|].
  by apply (recommendation_keys Sample.specs0 Sample.setup0 Sample.recs0).
Defined.

(** The fork's recommendation does not depend on the shock: removing the
    shock from a setup that was answered leaves the fork's entry as the
    whole answer. *)
Theorem fork_entry_ignores_shock specs setup recs :
  calculate_baseline specs setup = Ok recs ->
  exists rf,
    recs !! "fork" = Some rf
    /\ calculate_baseline specs (without_shock setup) = Ok {[ "fork" := rf ]}.
Proof.
  intros Hcalc.
  apply calculate_baseline_cases in Hcalc as (rf & Hf & Hrecs).
  exists rf. split.
  - destruct (shock setup) as [sh|].
    + destruct Hrecs as (rs & _ & ->).
      rewrite lookup_insert_ne by done. apply lookup_singleton_eq.
    + rewrite Hrecs. apply lookup_singleton_eq.
  - unfold calculate_baseline. simpl.
    unfold settings_of in Hf. by rewrite Hf.
Qed.

Lemma fork_entry_ignores_shock_witness :
  calculate_baseline Sample.specs0 Sample.setup0 = Ok Sample.recs0
  /\ exists rf,
       Sample.recs0 !! "fork" = Some rf
       /\ calculate_baseline Sample.specs0 (without_shock Sample.setup0)
          = Ok {[ "fork" := rf ]}.
Proof.
  split; [reflexivity|].
  by apply (fork_entry_ignores_shock Sample.specs0 Sample.setup0 Sample.recs0).
Defined.

(** ** Exact products *)

(** A value with at most 53 significant bits is its own rounding. *)
Lemma Rnd_representable m k :
  0 <= m < 2 ^ 53 -> 0 <= k -> Rnd (m * 2 ^ (k + 1074)) = m * 2 ^ k.
Proof.
  intros Hm Hk.
  destruct (Z.eq_dec m 0) as [->|Hm0]; [by rewrite !Z.mul_0_l, Rnd_0|].
  unfold Rnd. rewrite Zdigits2_mul_pow2 by lia.
  pose proof (Zdigits2_lt_pow2 m 53 ltac:(lia) ltac:(lia) ltac:(lia)) as Hd.
  assert (Hd1 : 1 <= Zdigits2 m) by (destruct m; simpl; lia).
  set (d := Zdigits2 m) in *.
  destruct (Z.max_spec (d + (k + 1074) - 53) 1074) as [[Hlt ->]|[Hge ->]].
  - replace (1074 - 1074) with 0 by lia. rewrite Z.mul_1_r.
    rewrite pow2_split, Z.mul_assoc by lia. by rewrite rne_exact.
  - set (t := d + (k + 1074) - 53).
    replace (m * 2 ^ (k + 1074)) with (m * 2 ^ (53 - d) * 2 ^ t).
    2:{ rewrite <- Z.mul_assoc, <- pow2_split by lia. do 2 f_equal. lia. }
    rewrite rne_exact by lia.
    rewrite <- Z.mul_assoc, <- pow2_split by lia. do 2 f_equal. lia.
Qed.

Lemma float_of_int_exact z f :
  0 <= z < 2 ^ 53 -> float_of_int z = Ok f ->
  good f /\ rank f = z * 2 ^ 1074 /\ rank f < INF.
Proof.
  intros Hz Hf.
  destruct (float_of_int_rank z f ltac:(lia) Hf) as (Hr & Hlt & Hv & Hn).
  split; [done|]. split; [|done]. rewrite Hr.
  replace 2148 with (1074 + 1074) by lia. by apply Rnd_representable.
Qed.

(** Multiplying by a float that is at most 1.0 does not increase the
    integer part beyond the other factor when that one is an integer. *)
Lemma scaled_int_le z f g b :
  0 <= z < 2 ^ 53 -> float_of_int z = Ok g ->
  good f -> rank f <= 2 ^ 1074 ->
  (int_of_float (float_mul g f) = Ok b \/ int_of_float (float_mul f g) = Ok b) ->
  0 <= b <= z.
Proof.
  intros Hz Hg Hf Hle Hb.
  destruct (float_of_int_exact z g Hz Hg) as (Hgg & Hrg & _).
  assert (Hp : 0 < 2 ^ 1074) by (by apply pow2_pos).
  pose proof (rank_nonneg f (proj2 Hf)) as Hf0.
  assert (Hb' : 0 <= b /\ b = Rnd (rank g * rank f) / 2 ^ 1074).
  { destruct Hb as [Hb|Hb].
    - by destruct (mul_int_rank g f b Hgg Hf Hb) as (_ & _ & H0 & Heq).
    - destruct (mul_int_rank f g b Hf Hgg Hb) as (_ & _ & H0 & Heq).
      by rewrite (Z.mul_comm (rank g) (rank f)). }
  destruct Hb' as [Hb0 ->]. split; [done|].
  assert (Hmono : Rnd (rank g * rank f) <= Rnd (z * 2 ^ (1074 + 1074))).
  { apply Rnd_mono. rewrite Hrg. split; [nia|].
    rewrite (pow2_split 1074 1074), Z.mul_assoc by lia.
    apply Z.mul_le_mono_nonneg_l; nia. }
  rewrite Rnd_representable in Hmono by lia.
  apply Z.div_le_upper_bound; [done|]. lia.
Qed.

(** The sag fields and the tip of a recommendation that was produced. *)
Lemma get_component_settings_sag specs w bt t_mod w_mod comp name r :
  get_component_settings specs w bt t_mod w_mod comp name = Ok r ->
  Py.mul (NInt (travel_mm comp)) (lookup_sag_pct specs bt name) ≫= Py.int
  = Ok (sag_mm r)
  /\ Py.mul (lookup_sag_pct specs bt name) (NInt 100) ≫= Py.int = Ok (sag_pct r)
  /\ smart_tip r = strip (m_tip t_mod +:+ " " +:+ m_tip w_mod).
Proof.
  unfold get_component_settings. intros H.
  apply bind_Ok in H as (p & _ & H).
  apply bind_Ok in H as (s & Hs & H).
  apply bind_Ok in H as (sm & Hsm & H).
  apply bind_Ok in H as (q & Hq & H).
  apply bind_Ok in H as (sp & Hsp & [= <-]).
  cbn [mbind result_bind sag_mm sag_pct smart_tip].
  by rewrite Hs, Hq.
Qed.

Lemma settings_entry specs setup recs name comp r :
  calculate_baseline specs setup = Ok recs ->
  present_component setup name = Some comp ->
  recs !! name = Some r ->
  settings_of specs setup comp name = Ok r.
Proof.
  intros Hcalc Hpres Hr.
  destruct (calculate_baseline_entry _ _ _ _ _ Hcalc Hpres) as (r' & Hr' & Hset).
  congruence.
Qed.

(** ** Sag *)

(** With a sag target between 0 and 1 the recommended sag is between 0 and
    the travel, and the reported percentage between 0 and 100. *)
Theorem sag_within_travel specs setup recs name comp r :
  BikeSetup_ok setup = true ->
  calculate_baseline specs setup = Ok recs ->
  present_component setup name = Some comp ->
  recs !! name = Some r ->
  unit_fraction (lookup_sag_pct specs (bike_type (rider setup)) name) = true ->
  0 <= sag_mm r <= travel_mm comp /\ 0 <= sag_pct r <= 100.
Proof.
  intros Hok Hcalc Hpres Hr Hfrac.
  pose proof (present_component_ok _ _ _ Hok Hpres) as Hcomp.
  unfold SuspensionComponent_ok in Hcomp.
  apply andb_prop in Hcomp as [H35%Z.ltb_lt H250%Z.leb_le].
  pose proof (settings_entry _ _ _ _ _ _ Hcalc Hpres Hr) as Hset.
  apply get_component_settings_sag in Hset as (Hmm & Hpct & _).
  destruct (lookup_sag_pct specs (bike_type (rider setup)) name) as [z|f].
  - simpl in Hfrac, Hmm, Hpct.
    apply andb_prop in Hfrac as [H0%Z.leb_le H1%Z.leb_le].
    injection Hmm as <-. injection Hpct as <-. nia.
  - simpl in Hfrac. apply andb_prop in Hfrac as [[Hv H0]%andb_prop H1].
    assert (Hf : good f) by (split; [done | by apply SFleb_zero_nonneg]).
    assert (Hone : good f_1_0 /\ rank f_1_0 = 2 ^ 1074)
      by (split; [by vm_compute | reflexivity]).
    destruct Hone as [Hg1 Hr1].
    pose proof (SFleb_rank f f_1_0 Hf Hg1 H1) as Hle. rewrite Hr1 in Hle.
    cbn -[float_of_int float_mul int_of_float] in Hmm, Hpct.
    destruct (float_of_int (travel_mm comp)) as [g|] eqn:Hg; [|discriminate].
    destruct (float_of_int 100) as [h|] eqn:Hh; [|discriminate].
    cbn -[float_of_int float_mul int_of_float] in Hmm, Hpct.
    assert (H53 : 250 < 2 ^ 53) by done.
    split.
    + apply (scaled_int_le _ f g); try done; [lia | by left].
    + apply (scaled_int_le _ f h); try done; by right.
Qed.

Lemma sag_within_travel_witness :
  BikeSetup_ok Sample.setup0 = true
  /\ calculate_baseline Sample.specs0 Sample.setup0 = Ok Sample.recs0
  /\ forall r, Sample.recs0 !! "fork" = Some r ->
       0 <= sag_mm r <= 160 /\ 0 <= sag_pct r <= 100.
Proof.
  split; [reflexivity|]. split; [reflexivity|]. intros r Hr.
  by apply (sag_within_travel Sample.specs0 Sample.setup0 Sample.recs0 "fork"
              Sample.fork0 r).
Defined.

Lemma quarter_of_int z g b :
  0 <= z < 2 ^ 53 -> float_of_int z = Ok g ->
  int_of_float (float_mul g f_0_25) = Ok b -> b = z / 4.
Proof.
  intros Hz Hg Hb.
  destruct (float_of_int_exact z g Hz Hg) as (Hgg & Hrg & _).
  assert (Hq : good f_0_25 /\ rank f_0_25 = 2 ^ 1072)
    by (split; [by vm_compute | reflexivity]).
  destruct Hq as [Hgq Hrq].
  destruct (mul_int_rank g f_0_25 b Hgg Hgq Hb) as (_ & _ & _ & ->).
  rewrite Hrg, Hrq, <- Z.mul_assoc, <- (pow2_split 1074 1072) by lia.
  replace (1074 + 1072) with (1072 + 1074) by lia.
  rewrite Rnd_representable by lia.
  assert (Hsplit : 2 ^ 1074 = 4 * 2 ^ 1072).
  { replace 1074 with (2 + 1072) by lia. rewrite (pow2_split 2 1072) by lia. done. }
  rewrite Hsplit. apply Z.div_mul_cancel_r; [lia|].
  apply Z.pow_nonzero; lia.
Qed.

Lemma quarter_percent h b :
  float_of_int 100 = Ok h ->
  int_of_float (float_mul f_0_25 h) = Ok b -> b = 25.
Proof.
  intros Hh Hb.
  destruct (float_of_int_exact 100 h ltac:(done) Hh) as (Hgh & Hrh & _).
  assert (Hq : good f_0_25 /\ rank f_0_25 = 2 ^ 1072)
    by (split; [by vm_compute | reflexivity]).
  destruct Hq as [Hgq Hrq].
  destruct (mul_int_rank f_0_25 h b Hgq Hgh Hb) as (_ & _ & _ & ->).
  rewrite Hrh, Hrq, (Z.mul_comm (2 ^ 1072)), <- Z.mul_assoc.
  rewrite <- (pow2_split 1074 1072) by lia.
  replace (1074 + 1072) with (1072 + 1074) by lia.
  rewrite Rnd_representable by (done || lia).
  assert (Hsplit : 2 ^ 1074 = 4 * 2 ^ 1072).
  { replace 1074 with (2 + 1072) by lia. rewrite (pow2_split 2 1072) by lia. done. }
  rewrite Hsplit, Z.div_mul_cancel_r; [done|lia|].
  apply Z.pow_nonzero; lia.
Qed.

(** Without a sag target in the store the fraction is 0.25: the reported
    percentage is 25 and the sag is a quarter of the travel, rounded
    down. *)
Theorem default_sag_is_a_quarter specs setup recs name comp r :
  BikeSetup_ok setup = true ->
  calculate_baseline specs setup = Ok recs ->
  present_component setup name = Some comp ->
  recs !! name = Some r ->
  no_sag_target specs (bike_type (rider setup)) name ->
  sag_pct r = 25 /\ sag_mm r = travel_mm comp / 4.
Proof.
  intros Hok Hcalc Hpres Hr Hnone.
  pose proof (present_component_ok _ _ _ Hok Hpres) as Hcomp.
  unfold SuspensionComponent_ok in Hcomp.
  apply andb_prop in Hcomp as [H35%Z.ltb_lt H250%Z.leb_le].
  pose proof (settings_entry _ _ _ _ _ _ Hcalc Hpres Hr) as Hset.
  apply get_component_settings_sag in Hset as (Hmm & Hpct & _).
  unfold lookup_sag_pct in Hmm, Hpct. unfold no_sag_target in Hnone.
  rewrite Hnone in Hmm, Hpct.
  cbn -[float_of_int float_mul int_of_float] in Hmm, Hpct.
  destruct (float_of_int (travel_mm comp)) as [g|] eqn:Hg; [|discriminate].
  destruct (float_of_int 100) as [h|] eqn:Hh; [|discriminate].
  cbn -[float_of_int float_mul int_of_float] in Hmm, Hpct.
  assert (H53 : 250 < 2 ^ 53) by done.
  split.
  - by apply (quarter_percent h).
  - apply (quarter_of_int _ g); [lia|done..].
Qed.

Lemma default_sag_is_a_quarter_witness :
  BikeSetup_ok Sample.setup0 = true
  /\ calculate_baseline Sample.specs0 Sample.setup0 = Ok Sample.recs0
  /\ no_sag_target Sample.specs0 (bike_type (rider Sample.setup0)) "shock"
  /\ forall r, Sample.recs0 !! "shock" = Some r ->
       sag_pct r = 25 /\ sag_mm r = 150 / 4.
Proof.
  split; [reflexivity|]. split; [reflexivity|]. split; [reflexivity|].
  intros r Hr.
  by apply (default_sag_is_a_quarter Sample.specs0 Sample.setup0 Sample.recs0
              "shock" Sample.shock0 r).
Defined.

(** ** More on psi *)

Lemma psi_of_rank_mono_all rg rg' rt rt' rw rw' a b :
  0 <= rg <= rg' -> 0 <= rt <= rt' -> 0 <= rw <= rw' -> 0 <= a <= b ->
  0 <= psi_of_rank rg rt rw a <= psi_of_rank rg' rt' rw' b.
Proof.
  intros Hg Ht Hw Hab. unfold psi_of_rank.
  assert (Hp : 0 < 2 ^ 1074) by (by apply pow2_pos).
  assert (Hq : 0 < 2 ^ 2148) by (by apply pow2_pos).
  assert (H1 : 0 <= Rnd (a * rg) <= Rnd (b * rg')).
  { split; [apply Rnd_nonneg; nia|]. apply Rnd_mono. nia. }
  assert (H2 : 0 <= Rnd (a * rg) / 2 ^ 1074 <= Rnd (b * rg') / 2 ^ 1074).
  { split; [apply Z.div_pos; lia|]. apply Z.div_le_mono; lia. }
  set (sa := Rnd (a * rg) / 2 ^ 1074) in *.
  set (sb := Rnd (b * rg') / 2 ^ 1074) in *.
  assert (H3 : 0 <= Rnd (sa * 2 ^ 2148) <= Rnd (sb * 2 ^ 2148)).
  { split; [apply Rnd_nonneg; nia|]. apply Rnd_mono. nia. }
  set (fa := Rnd (sa * 2 ^ 2148)) in *. set (fb := Rnd (sb * 2 ^ 2148)) in *.
  assert (H4 : 0 <= Rnd (fa * rt) <= Rnd (fb * rt')).
  { split; [apply Rnd_nonneg; nia|]. apply Rnd_mono. nia. }
  set (ya := Rnd (fa * rt)) in *. set (yb := Rnd (fb * rt')) in *.
  assert (H5 : 0 <= Rnd (ya * rw) <= Rnd (yb * rw')).
  { split; [apply Rnd_nonneg; nia|]. apply Rnd_mono. nia. }
  split; [apply Z.div_pos; lia|]. apply Z.div_le_mono; lia.
Qed.

Lemma float_le_int_false x z :
  good x -> (forall s, x <> S754_infinity s) ->
  float_le_int x z = false -> z * 2 ^ 1074 < rank x.
Proof.
  intros [Hv Hn] Hinf. assert (0 < 2 ^ 1074) by (by apply pow2_pos).
  destruct x as [s|s| |s m e]; simpl in Hn; try discriminate; simpl.
  - intros Hz%Z.leb_gt. lia.
  - by destruct (Hinf s).
  - destruct s; [discriminate|]. simpl.
    apply valid_finite in Hv as (He & _).
    destruct (Z.leb_spec 0 e) as [Hpos|Hneg]; intros Hle%Z.leb_gt.
    + rewrite Z.shiftl_mul_pow2 in Hle by lia.
      rewrite (pow2_split e 1074), Z.mul_assoc by lia.
      apply Z.mul_lt_mono_pos_r; lia.
    + rewrite Z.shiftl_mul_pow2 in Hle by lia.
      assert (Hsplit : 2 ^ 1074 = 2 ^ (- e) * 2 ^ (e + 1074)).
      { rewrite <- (pow2_split (- e) (e + 1074)) by lia. f_equal. lia. }
      rewrite Hsplit, Z.mul_assoc.
      apply Z.mul_lt_mono_pos_r; [apply pow2_pos|]; lia.
Qed.

Lemma valid_weight_rank r :
  is_float (weight_kg r) = true -> RiderProfile_ok r = true ->
  good (weight_kg r) /\ 30 * 2 ^ 1074 < rank (weight_kg r) <= 150 * 2 ^ 1074.
Proof.
  intros Hf Hok. destruct (valid_weight r Hf Hok) as (Hg & [_ Hup] & Hinf).
  split; [done|]. split; [|done].
  apply andb_prop in Hok as [Hlt _]. unfold float_lt_int in Hlt.
  apply float_le_int_false; [done..|].
  destruct (weight_kg r); try discriminate; by apply negb_true_iff.
Qed.

(** The weight constraint accepts finite positive floats only, and the
    integer part of an accepted weight is between 30 and 150: NaN, the
    infinities, zero and negative weights are rejected. *)
Theorem accepted_weight r :
  is_float (weight_kg r) = true -> RiderProfile_ok r = true ->
  exists m e n,
    weight_kg r = S754_finite false m e
    /\ int_of_float (weight_kg r) = Ok n
    /\ 30 <= n <= 150.
Proof.
  intros Hf Hok. destruct (valid_weight_rank r Hf Hok) as ([Hv Hn] & Hlo & Hhi).
  assert (Hp : 0 < 2 ^ 1074) by (by apply pow2_pos).
  pose proof (int_of_float_rank _ Hv Hn) as Hint.
  destruct (weight_kg r) as [s|s| |s m e] eqn:Hw; simpl in Hn; try discriminate.
  - destruct s; [discriminate|].
    change (rank (S754_infinity false)) with INF in Hhi.
    assert (150 * 2 ^ 1074 < INF); [|lia].
    eapply Z.lt_trans; [|apply (pow2_lt_INF 8); lia].
    rewrite (pow2_split 8 1074) by lia. apply Z.mul_lt_mono_pos_r; done.
  - destruct s; [discriminate|].
    exists m, e, (rank (S754_finite false m e) / 2 ^ 1074).
    split; [done|]. split; [done|]. split.
    + apply Z.div_le_lower_bound; lia.
    + apply Z.div_le_upper_bound; lia.
Qed.

Lemma accepted_weight_witness :
  is_float (weight_kg Sample.rider0) = true
  /\ RiderProfile_ok Sample.rider0 = true
  /\ exists m e n,
       weight_kg Sample.rider0 = S754_finite false m e
       /\ int_of_float (weight_kg Sample.rider0) = Ok n
       /\ 30 <= n <= 150.
Proof.
  split; [reflexivity|]. split; [reflexivity|].
  apply (accepted_weight Sample.rider0); reflexivity.
Defined.

Lemma Rnd_float x :
  good x -> rank x < INF -> Rnd (rank x * 2 ^ 1074) = rank x.
Proof.
  intros [Hv Hn] Hfin. pose proof INF_pos.
  destruct x as [s|s| |s m e]; simpl in Hn; try discriminate.
  - by simpl; rewrite Z.mul_0_l, Rnd_0.
  - destruct s; [discriminate|]. simpl in Hfin. lia.
  - destruct s; [discriminate|]. simpl.
    destruct (valid_finite _ _ _ Hv) as (He & Hd & _).
    pose proof (Zdigits2_bounds (Z.pos m) ltac:(lia)) as [_ Hu].
    assert (Z.pos m < 2 ^ 53).
    { eapply Z.lt_le_trans; [exact Hu|]. apply Z.pow_le_mono_r; lia. }
    rewrite <- Z.mul_assoc, <- pow2_split by lia.
    apply Rnd_representable; lia.
Qed.

(** With the multiplier 1.0 and both percentages 1.0 the pipeline returns
    the integer part of the weight. *)
Lemma psi_of_rank_neutral r :
  0 <= r -> r / 2 ^ 1074 < 2 ^ 53 -> Rnd (r * 2 ^ 1074) = r ->
  psi_of_rank (2 ^ 1074) (2 ^ 1074) (2 ^ 1074) r = r / 2 ^ 1074.
Proof.
  intros Hr Hsmall Hexact. unfold psi_of_rank. rewrite Hexact.
  assert (Hp : 0 < 2 ^ 1074) by (by apply pow2_pos).
  set (n := r / 2 ^ 1074) in *.
  assert (Hn : 0 <= n) by (apply Z.div_pos; lia).
  assert (Hstep : Rnd (n * 2 ^ 1074 * 2 ^ 1074) = n * 2 ^ 1074).
  { rewrite <- Z.mul_assoc, <- (pow2_split 1074 1074) by lia.
    apply Rnd_representable; lia. }
  replace 2148 with (1074 + 1074) by lia.
  rewrite Rnd_representable by lia. rewrite !Hstep.
  by rewrite Z.div_mul by lia.
Qed.

(** With the multiplier 1.0 (the default of an unknown brand) on neutral
    ground, where both percentages are 1.0, the psi is the rider's weight
    in kg, rounded down. *)
Theorem neutral_psi_is_the_weight specs setup name comp p :
  is_float (weight_kg (rider setup)) = true ->
  RiderProfile_ok (rider setup) = true ->
  present_component setup name = Some comp ->
  multiplier_of specs comp name = NFloat f_1_0 ->
  psi_pct_of (terrain_modifier (terrain (conditions setup))) = f_1_0 ->
  weather (conditions setup) = dry ->
  psi_at specs setup name = Some p ->
  int_of_float (weight_kg (rider setup)) = Ok p /\ 30 <= p <= 150.
Proof.
  intros Hf Hok Hpres Hmult Hterrain Hweather Hp.
  destruct (valid_weight_rank _ Hf Hok) as (Hg & Hlo & Hhi).
  destruct (valid_weight _ Hf Hok) as (_ & _ & Hinf).
  apply (psi_at_compute _ _ _ comp) in Hp; [|done].
  rewrite Hweather in Hp. unfold multiplier_of in Hmult.
  assert (Hone : good f_1_0 /\ rank f_1_0 = 2 ^ 1074)
    by (split; [by vm_compute | reflexivity]).
  destruct Hone as [Hg1 Hr1].
  assert (H1fin : rank f_1_0 < INF).
  { rewrite Hr1. apply (pow2_lt_INF 0). lia. }
  assert (Hgt : good (psi_pct_of (terrain_modifier (terrain (conditions setup)))))
    by (by rewrite Hterrain).
  assert (Hft : rank (psi_pct_of (terrain_modifier (terrain (conditions setup))))
                < INF) by (by rewrite Hterrain).
  assert (Hgw : good (psi_pct_of (weather_modifier dry))) by exact Hg1.
  assert (Hmok : num_ok (default (NFloat f_1_0)
                   (psi_multiplier (resolve_brand_data specs comp name))) = true)
    by (by rewrite Hmult).
  assert (Hmnn : num_nonneg (default (NFloat f_1_0)
                   (psi_multiplier (resolve_brand_data specs comp name))) = true)
    by (by rewrite Hmult).
  destruct (compute_psi_rank _ _ _ _ _ Hg Hgt Hft Hgw Hmok Hmnn Hp) as [-> _].
  rewrite Hmult, Hterrain. simpl num_rank.
  change (psi_pct_of (weather_modifier dry)) with f_1_0. rewrite Hr1.
  assert (Hp2 : 0 < 2 ^ 1074) by (by apply pow2_pos).
  assert (Hfin : rank (weight_kg (rider setup)) < INF).
  { destruct Hg as [Hv Hn]. by apply rank_lt_INF. }
  assert (H150 : 150 < 2 ^ 53) by done.
  assert (Hn : 30 <= rank (weight_kg (rider setup)) / 2 ^ 1074 <= 150).
  { split; [apply Z.div_le_lower_bound | apply Z.div_le_upper_bound]; lia. }
  rewrite psi_of_rank_neutral; [|lia|lia|by apply Rnd_float].
  split; [|done].
  destruct Hg as [Hv Hnn]. pose proof (int_of_float_rank _ Hv Hnn) as Hint.
  destruct (weight_kg (rider setup)) as [s|s| |s m e]; try done.
  by destruct (Hinf s).
Qed.

Lemma neutral_psi_is_the_weight_witness :
  psi_at Stores.sag_only More.setup_trail "shock" = Some 75
  /\ int_of_float (weight_kg (rider More.setup_trail)) = Ok 75.
Proof.
  split; [reflexivity|].
  by apply (neutral_psi_is_the_weight Stores.sag_only More.setup_trail "shock"
              Sample.shock0 75).
Defined.

(** Psi follows the percentages: with the same rider, component and store
    and a multiplier that is not negative, conditions whose terrain and
    weather percentages are both at most those of other conditions never
    give the higher psi; so wet weather never raises it. *)
Theorem psi_follows_percentages specs setup c1 c2 name comp p1 p2 :
  is_float (weight_kg (rider setup)) = true ->
  RiderProfile_ok (rider setup) = true ->
  present_component setup name = Some comp ->
  num_ok (multiplier_of specs comp name) = true ->
  num_nonneg (multiplier_of specs comp name) = true ->
  SFleb (psi_pct_of (terrain_modifier (terrain c1)))
        (psi_pct_of (terrain_modifier (terrain c2))) = true ->
  SFleb (psi_pct_of (weather_modifier (weather c1)))
        (psi_pct_of (weather_modifier (weather c2))) = true ->
  psi_at specs (with_conditions setup c1) name = Some p1 ->
  psi_at specs (with_conditions setup c2) name = Some p2 ->
  0 <= p1 /\ p1 <= p2.
Proof.
  intros Hf Hok Hpres Hmok Hmnn Ht Hw Hp1 Hp2.
  destruct (valid_weight _ Hf Hok) as (Hg & Hr & _).
  apply (psi_at_compute _ _ _ comp) in Hp1; [|done].
  apply (psi_at_compute _ _ _ comp) in Hp2; [|done].
  simpl in Hp1, Hp2.
  destruct (psi_pct_good_terrain (terrain c1)) as [Ht1 Htb1].
  destruct (psi_pct_good_terrain (terrain c2)) as [Ht2 Htb2].
  destruct (psi_pct_good_weather (weather c1)) as [Hw1 _].
  destruct (psi_pct_good_weather (weather c2)) as [Hw2 _].
  apply below_two_finite in Htb1, Htb2.
  destruct (compute_psi_rank _ _ _ _ _ Hg Ht1 Htb1 Hw1 Hmok Hmnn Hp1) as [-> Hm].
  destruct (compute_psi_rank _ _ _ _ _ Hg Ht2 Htb2 Hw2 Hmok Hmnn Hp2) as [-> _].
  apply psi_of_rank_mono_all; [lia| | |lia].
  - split; [by apply rank_nonneg, Ht1 | by apply SFleb_rank].
  - split; [by apply rank_nonneg, Hw1 | by apply SFleb_rank].
Qed.

Lemma psi_follows_percentages_witness :
  psi_at Sample.specs0 (with_conditions More.setup_trail More.wet_trail) "fork"
  = Some 71
  /\ psi_at Sample.specs0
       (with_conditions More.setup_trail (conditions More.setup_trail)) "fork"
     = Some 75
  /\ 0 <= 71 /\ 71 <= 75.
Proof.
  split; [reflexivity|]. split; [reflexivity|].
  apply (psi_follows_percentages Sample.specs0 More.setup_trail More.wet_trail
           (conditions More.setup_trail) "fork" Sample.fork0 71 75);
    reflexivity.
Defined.

Lemma psi_pct_terrain_range t :
  rank f_0_98 <= rank (psi_pct_of (terrain_modifier t)) <= rank f_1_05.
Proof. destruct t; vm_compute; split; congruence. Qed.

Lemma psi_pct_weather_range w :
  rank f_0_95 <= rank (psi_pct_of (weather_modifier w)) <= rank f_1_0.
Proof. destruct w; vm_compute; split; congruence. Qed.

Lemma psi_of_rank_lowest :
  psi_of_rank (2 ^ 1074) (rank f_0_98) (rank f_0_95) (30 * 2 ^ 1074) = 27.
Proof. by vm_compute. Qed.

Lemma psi_of_rank_highest :
  psi_of_rank (2 ^ 1074) (rank f_1_05) (rank f_1_0) (150 * 2 ^ 1074) = 157.
Proof. by vm_compute. Qed.

(** With the multiplier 1.0 the psi stays between 27 and 157, whatever the
    conditions: the weight is between 30 and 150 kg and the percentages
    take off at most 0.98 * 0.95 and add at most 1.05. *)
Theorem default_psi_range specs setup name comp p :
  is_float (weight_kg (rider setup)) = true ->
  RiderProfile_ok (rider setup) = true ->
  present_component setup name = Some comp ->
  multiplier_of specs comp name = NFloat f_1_0 ->
  psi_at specs setup name = Some p ->
  27 <= p <= 157.
Proof.
  intros Hf Hok Hpres Hmult Hp.
  destruct (valid_weight_rank _ Hf Hok) as (Hg & Hlo & Hhi).
  apply (psi_at_compute _ _ _ comp) in Hp; [|done].
  unfold multiplier_of in Hmult.
  destruct (psi_pct_good_terrain (terrain (conditions setup))) as [Ht Htb].
  destruct (psi_pct_good_weather (weather (conditions setup))) as [Hw _].
  apply below_two_finite in Htb.
  assert (Hmok : num_ok (default (NFloat f_1_0)
                   (psi_multiplier (resolve_brand_data specs comp name))) = true)
    by (by rewrite Hmult).
  assert (Hmnn : num_nonneg (default (NFloat f_1_0)
                   (psi_multiplier (resolve_brand_data specs comp name))) = true)
    by (by rewrite Hmult).
  destruct (compute_psi_rank _ _ _ _ _ Hg Ht Htb Hw Hmok Hmnn Hp) as [-> _].
  rewrite Hmult. simpl num_rank. change (rank f_1_0) with (2 ^ 1074).
  pose proof (psi_pct_terrain_range (terrain (conditions setup))) as Htr.
  pose proof (psi_pct_weather_range (weather (conditions setup))) as Hwr.
  assert (Hp2 : 0 < 2 ^ 1074) by (by apply pow2_pos).
  assert (H98 : 0 <= rank f_0_98) by (by vm_compute).
  assert (H95 : 0 <= rank f_0_95) by (by vm_compute).
  split.
  - rewrite <- psi_of_rank_lowest. apply psi_of_rank_mono_all; lia.
  - rewrite <- psi_of_rank_highest. apply psi_of_rank_mono_all; lia.
Qed.

Lemma default_psi_range_witness :
  psi_at Stores.sag_only More.setup_trail "shock" = Some 75 /\ 27 <= 75 <= 157.
Proof.
  split; [reflexivity|].
  by apply (default_psi_range Stores.sag_only More.setup_trail "shock"
              Sample.shock0 75).
Defined.

(** ** Tips and clicks across conditions *)

Lemma entry_present specs setup recs name r :
  calculate_baseline specs setup = Ok recs ->
  recs !! name = Some r ->
  exists comp,
    present_component setup name = Some comp
    /\ settings_of specs setup comp name = Ok r.
Proof.
  intros Hcalc Hr.
  apply calculate_baseline_cases in Hcalc as (rf & Hf & Hrecs).
  unfold present_component.
  destruct (String.eqb_spec name "fork") as [->|Hnf].
  - exists (fork setup). split; [done|].
    destruct (shock setup) as [sh|].
    + destruct Hrecs as (rs & _ & ->).
      rewrite lookup_insert_ne, lookup_singleton_eq in Hr by done. congruence.
    + rewrite Hrecs, lookup_singleton_eq in Hr. congruence.
  - destruct (shock setup) as [sh|].
    + destruct Hrecs as (rs & Hs & ->).
      destruct (String.eqb_spec name "shock") as [->|Hns].
      * exists sh. split; [done|]. rewrite lookup_insert_eq in Hr. congruence.
      * rewrite lookup_insert_ne, lookup_singleton_ne in Hr by done. done.
    + rewrite Hrecs, lookup_singleton_ne in Hr by done. done.
Qed.

(** Every entry of an answer carries the same tip: the terrain's tip alone
    in dry weather, and otherwise the terrain's tip, a space and the
    weather's tip; stripping removes nothing else. *)
Theorem tip_joins_terrain_and_weather specs setup recs name r :
  calculate_baseline specs setup = Ok recs ->
  recs !! name = Some r ->
  smart_tip r
  = joined_tip (terrain (conditions setup)) (weather (conditions setup)).
Proof.
  intros Hcalc Hr.
  destruct (entry_present _ _ _ _ _ Hcalc Hr) as (comp & _ & Hset).
  apply get_component_settings_sag in Hset as (_ & _ & ->).
  by destruct (terrain (conditions setup)), (weather (conditions setup)).
Qed.

Lemma tip_joins_terrain_and_weather_witness :
  calculate_baseline Sample.specs0 Sample.setup0 = Ok Sample.recs0
  /\ forall r, Sample.recs0 !! "shock" = Some r ->
       smart_tip r = "Skokovi traže stabilnost i sporiji rebound.".
Proof.
  split; [reflexivity|]. intros r Hr.
  by apply (tip_joins_terrain_and_weather Sample.specs0 Sample.setup0
              Sample.recs0 "shock" r).
Defined.

Lemma weather_le_deltas w1 w2 :
  weather_le w1 w2 = true ->
  default 0 (m_rebound (weather_modifier w1))
  <= default 0 (m_rebound (weather_modifier w2))
  /\ default 0 (m_lsc (weather_modifier w1))
     <= default 0 (m_lsc (weather_modifier w2))
  /\ default 0 (m_hsc (weather_modifier w1))
     <= default 0 (m_hsc (weather_modifier w2)).
Proof. destruct w1, w2; simpl; intros H; try discriminate H; lia. Qed.

(** On the same terrain, wetter weather never raises a click value: the
    two answers have the same keys of [clicks] for a component, and each
    value under the wetter weather is at most the value under the drier
    one. *)
Theorem wetter_never_more_clicks specs setup c1 c2 recs1 recs2 name r1 r2 :
  terrain c1 = terrain c2 ->
  weather_le (weather c1) (weather c2) = true ->
  calculate_baseline specs (with_conditions setup c1) = Ok recs1 ->
  calculate_baseline specs (with_conditions setup c2) = Ok recs2 ->
  recs1 !! name = Some r1 ->
  recs2 !! name = Some r2 ->
  (forall k, is_Some (clicks r1 !! k) <-> is_Some (clicks r2 !! k))
  /\ (forall k v1,
         clicks r1 !! k = Some v1 ->
         exists v2, clicks r2 !! k = Some v2 /\ v1 <= v2)
  /\ (forall k v2,
         clicks r2 !! k = Some v2 ->
         exists v1, clicks r1 !! k = Some v1 /\ v1 <= v2).
Proof.
  intros Ht Hle Hc1 Hc2 Hr1 Hr2.
  destruct (entry_present _ _ _ _ _ Hc1 Hr1) as (comp & Hp1 & Hs1).
  destruct (entry_present _ _ _ _ _ Hc2 Hr2) as (comp' & Hp2 & Hs2).
  change (present_component (with_conditions setup c1) name)
    with (present_component setup name) in Hp1.
  change (present_component (with_conditions setup c2) name)
    with (present_component setup name) in Hp2.
  assert (comp' = comp) as -> by congruence.
  apply get_component_settings_Ok in Hs1 as [_ Hk1].
  apply get_component_settings_Ok in Hs2 as [_ Hk2].
  simpl in Hk1, Hk2. rewrite Hk1, Hk2, Ht.
  destruct (weather_le_deltas _ _ Hle) as (Hreb & Hlsc & Hhsc).
  split; [|split].
  - intros k. rewrite !build_clicks_lookup.
    destruct (click_flag comp k); [|done].
    repeat match goal with
           | |- context [if ?b then _ else _] => destruct b
           end; split; eauto.
  - intros k v1. rewrite !build_clicks_lookup.
    destruct (click_flag comp k); [|discriminate].
    repeat match goal with
           | |- context [if ?b then _ else _] => destruct b
           end;
      intros [= <-]; eexists; (split; [reflexivity|]);
      unfold final_lsr, final_hsr, final_rebound, final_lsc, final_hsc; lia.
  - intros k v2. rewrite !build_clicks_lookup.
    destruct (click_flag comp k); [|discriminate].
    repeat match goal with
           | |- context [if ?b then _ else _] => destruct b
           end;
      intros [= <-]; eexists; (split; [reflexivity|]);
      unfold final_lsr, final_hsr, final_rebound, final_lsc, final_hsc; lia.
Qed.

Lemma wetter_never_more_clicks_witness :
  exists recs1 recs2 r1 r2,
    calculate_baseline Sample.specs0
      (with_conditions More.setup_trail More.wet_trail) = Ok recs1
    /\ calculate_baseline Sample.specs0
         (with_conditions More.setup_trail (conditions More.setup_trail))
       = Ok recs2
    /\ recs1 !! "fork" = Some r1
    /\ recs2 !! "fork" = Some r2
    /\ (forall k, is_Some (clicks r1 !! k) <-> is_Some (clicks r2 !! k))
    /\ clicks r1 !! "lsc" = Some 0
    /\ exists v2, clicks r2 !! "lsc" = Some v2 /\ 0 <= v2.
Proof.
  destruct (calculate_baseline Sample.specs0
              (with_conditions More.setup_trail More.wet_trail))
    as [recs1|] eqn:H1; [|by vm_compute in H1].
  destruct (calculate_baseline Sample.specs0
              (with_conditions More.setup_trail (conditions More.setup_trail)))
    as [recs2|] eqn:H2; [|by vm_compute in H2].
  destruct (recs1 !! "fork") as [r1|] eqn:Hr1;
    [|vm_compute in H1; injection H1 as <-; by vm_compute in Hr1].
  destruct (recs2 !! "fork") as [r2|] eqn:Hr2;
    [|vm_compute in H2; injection H2 as <-; by vm_compute in Hr2].
  assert (Hk : clicks r1 !! "lsc" = Some 0).
  { vm_compute in H1. injection H1 as <-. vm_compute in Hr1.
    injection Hr1 as <-. reflexivity. }
  destruct (wetter_never_more_clicks Sample.specs0 More.setup_trail
              More.wet_trail (conditions More.setup_trail) recs1 recs2
              "fork" r1 r2 eq_refl eq_refl H1 H2 Hr1 Hr2)
    as (Hkeys & Hup & _).
  exists recs1, recs2, r1, r2. repeat split; try done; try apply Hkeys.
  by apply Hup.
Defined.

(** ** What the calculator does not read *)

Lemma get_component_settings_view specs w bt t_mod w_mod c1 c2 name :
  calculator_view c1 = calculator_view c2 ->
  get_component_settings specs w bt t_mod w_mod c1 name
  = get_component_settings specs w bt t_mod w_mod c2 name.
Proof.
  unfold calculator_view. intros [= Hb Ht Hr Hlsr Hhsr Hlsc Hhsc].
  unfold get_component_settings, resolve_brand_data, build_clicks.
  by rewrite Hb, Ht, Hr, Hlsr, Hhsr, Hlsc, Hhsc.
Qed.

(** The answer depends on the weight, the bike type, the conditions and,
    of each component, on the brand, the travel and the five click flags
    only: the skill level, the air-spring and token flags and the current
    pressure change nothing, so a coil fork gets a psi as well. *)
Theorem unread_fields_change_nothing specs s1 s2 :
  weight_kg (rider s1) = weight_kg (rider s2) ->
  bike_type (rider s1) = bike_type (rider s2) ->
  conditions s1 = conditions s2 ->
  calculator_view (fork s1) = calculator_view (fork s2) ->
  calculator_view <$> shock s1 = calculator_view <$> shock s2 ->
  calculate_baseline specs s1 = calculate_baseline specs s2.
Proof.
  intros Hw Hb Hc Hf Hs. unfold calculate_baseline.
  rewrite Hw, Hb, Hc.
  rewrite (get_component_settings_view _ _ _ _ _ _ _ "fork" Hf).
  destruct (shock s1) as [sh1|], (shock s2) as [sh2|]; try discriminate Hs;
    [|done].
  assert (Hs' : calculator_view sh1 = calculator_view sh2)
    by (simpl in Hs; congruence).
  by rewrite (get_component_settings_view _ _ _ _ _ _ _ "shock" Hs').
Qed.

Lemma unread_fields_change_nothing_witness :
  calculate_baseline Sample.specs0 Coil.setup1
  = calculate_baseline Sample.specs0 Sample.setup0.
Proof.
  by apply (unread_fields_change_nothing Sample.specs0 Coil.setup1 Sample.setup0).
Defined.

(** ** Constructor and calculator together *)

(** The answer for a constructed hardtail is the fork's entry alone. *)
Theorem hardtail_gets_fork_only specs r c f s b recs :
  BikeSetup_new r c f s = Ok b ->
  bike_type r = hardtail ->
  calculate_baseline specs b = Ok recs ->
  exists rf,
    settings_of specs b f "fork" = Ok rf /\ recs = {[ "fork" := rf ]}.
Proof.
  intros Hnew Hb Hcalc.
  pose proof (BikeSetup_new_ok _ _ _ _ _ Hnew) as Hok.
  assert (Hfields : rider b = r /\ fork b = f).
  { unfold BikeSetup_new in Hnew.
    apply bind_Ok in Hnew as (sf & _ & Hnew).
    destruct (RiderProfile_ok r); [|discriminate].
    destruct (SuspensionComponent_ok f), sf; try discriminate.
    by injection Hnew as <-. }
  destruct Hfields as [Hr Hf].
  unfold BikeSetup_ok in Hok. rewrite Hr, Hb in Hok.
  apply calculate_baseline_cases in Hcalc as (rf & Hrf & Hrecs).
  exists rf. rewrite <- Hf. split; [done|].
  destruct (shock b); [|done].
  rewrite andb_false_r in Hok. by rewrite andb_false_r in Hok.
Qed.

Lemma hardtail_gets_fork_only_witness :
  exists recs rf,
    BikeSetup_new (rider Sample.setup_hardtail) (conditions Sample.setup_hardtail)
      (fork Sample.setup_hardtail) ShockNull = Ok Sample.setup_hardtail
    /\ calculate_baseline Sample.specs0 Sample.setup_hardtail = Ok recs
    /\ recs = {[ "fork" := rf ]}.
Proof.
  destruct (calculate_baseline Sample.specs0 Sample.setup_hardtail)
    as [recs|] eqn:Hcalc; [|by vm_compute in Hcalc].
  destruct (hardtail_gets_fork_only Sample.specs0
              (rider Sample.setup_hardtail) (conditions Sample.setup_hardtail)
              (fork Sample.setup_hardtail) ShockNull Sample.setup_hardtail recs
              eq_refl eq_refl Hcalc) as (rf & _ & Hrecs).
  by exists recs, rf.
Defined.

(** ** The endpoints *)

(** A specification file that is missing or is not JSON does not fail the
    request: a valid bike is answered from the empty store; any other
    failure of the load leaves the endpoint as an exception. *)
Theorem missing_specs_file_answered e bike :
  BikeSetup_ok bike = true ->
  is_float (weight_kg (rider bike)) = true ->
  (e <> OtherLoadError ->
   exists recs,
     get_baseline_setup (LoadFailed e) bike = inr (Ok recs)
     /\ calculate_baseline no_specs bike = Ok recs)
  /\ (e = OtherLoadError ->
      get_baseline_setup (LoadFailed e) bike = inl OtherLoadError).
Proof.
  intros Hok Hf. split; [|by intros ->].
  intros He.
  destruct (calculate_baseline_total no_specs bike) as (recs & Hrecs).
  { intros name comp Hpres.
    destruct (no_specs_unknown bike name comp) as [Hu Hs].
    destruct (settings_from_defaults no_specs bike name comp Hok Hf Hpres Hu Hs)
      as (r & Hr & _).
    by exists r. }
  exists recs. split; [|done].
  unfold get_baseline_setup. destruct e; simpl; by rewrite ?Hrecs.
Qed.

Lemma missing_specs_file_answered_witness :
  BikeSetup_ok Sample.setup0 = true
  /\ exists recs,
       get_baseline_setup (LoadFailed FileNotFoundError) Sample.setup0
       = inr (Ok recs).
Proof.
  split; [reflexivity|].
  destruct (missing_specs_file_answered FileNotFoundError Sample.setup0
              eq_refl eq_refl) as [H _].
  destruct (H ltac:(discriminate)) as (recs & Hrecs & _).
  by exists recs.
Defined.

(** The diagnose endpoint answers "unknown symptom" exactly when the rule
    file could not be loaded, whatever the failure, or holds no record of
    that id. *)
Theorem unloadable_rules_know_no_symptom base_attr logic_file bike symptom :
  diagnose_issue base_attr logic_file bike symptom = not_found
  <-> match logic_file with
      | Loaded db => Forall (fun item => symptom_id item <> symptom) db
      | LoadFailed _ => True
      end.
Proof.
  unfold diagnose_issue, DiagnosticAssistant_init.
  destruct logic_file as [db|e]; [|done].
  rewrite <- find_problem_None. unfold diagnose_problem, not_found.
  destruct (find_problem db symptom) as [problem|]; [|done].
  split; [|done].
  destruct (actual_comp bike problem) as [comp|]; [|discriminate].
  destruct (sort_by_priority _); discriminate.
Qed.
